(** * Interrupt-driven frequency generators for the ADuC841 (8051 core)

    Shallow embedding of the three programs of the repository:

    - [TimerFlag]      : timer 0 ISR counting interrupts and raising the
                         [TimeOver] flag, foreground loop toggling P3.4;
    - [FreqGenAccum]   : timer 0 ISR with a modulo-256 phase accumulator,
                         foreground loop with the walking LED pattern;
    - [FreqGen_timer2] : timer 2 ISR toggling the output, foreground loop
                         selecting the reload value from a look-up table.

    Machine integers are [Z] with the wrap-around written out; [bit]
    variables and single port pins are [bool]; the complement [~] of a
    [bit] is the bit complement, as the comments of the source state
    ("invert the output pin", "change flashing state"). *)

From Stdlib Require Import ZArith Bool List Lia.
Import ListNotations.
Local Open Scope Z_scope.

(** ** Machine integers *)

Definition uint8 (z : Z) : Z := z mod 256.
Definition uint16 (z : Z) : Z := z mod 65536.

Definition bit_of (b : bool) : Z := if b then 1 else 0.

(** ** Fallible computations: a loop model may run out of fuel *)

Definition bind {A B : Type} (m : option A) (k : A -> option B) : option B :=
  match m with
  | Some a => k a
  | None => None
  end.

Notation "x <- m ;; k" := (bind m (fun x => k))
  (at level 61, m at next level, right associativity).

(** Iteration of a state transformer, used for "after n calls". *)
Fixpoint iter {S : Type} (n : nat) (f : S -> S) (st : S) : S :=
  match n with
  | O => st
  | S k => iter k f (f st)
  end.

(** ** The software delay, shared by both frequency generators

<<
void delay (uint16 delayVal)
{
	uint16 i;
	for (i = 0; i < delayVal; i++) { }
}
>>
    [delay_loop fuel i delayVal iters] runs the [for] loop from the
    current value of [i]; it returns the final value of [i] and the number
    of times the body has been executed, or [None] when the fuel is gone. *)

Fixpoint delay_loop (fuel : nat) (i delayVal iters : Z) : option (Z * Z) :=
  match fuel with
  | O => None
  | S fuel' =>
      if i <? delayVal
      then delay_loop fuel' (uint16 (i + 1)) delayVal (iters + 1)
      else Some (i, iters)
  end.

(** One more test than the largest 16-bit argument needs. *)
Definition delay_fuel : nat := Z.to_nat 65536.

(** The call: the argument is converted to [uint16]; the function touches
    nothing but its local [i], so the program state is handed back. *)
Definition delay {S : Type} (delayVal : Z) (st : S) : option S :=
  _ <- delay_loop delay_fuel 0 (uint16 delayVal) 0 ;; Some st.

(** * Program 1: event flag set by the timer 0 ISR *)

Module TimerFlag.

(** [#define NUM_INTS 11059] *)
Definition NUM_INTS : Z := 11059.

(** Program counter of the foreground loop, one point per statement. *)
Inductive pc : Type :=
| AtWait      (* while(!TimeOver);  *)
| AtToggle    (* P3 ^= 0x10;        *)
| AtClear.    (* TimeOver = 0;      *)

Record state : Type := mkState {
  TimerTick : Z;       (* unsigned int, 16 bits on this target *)
  TimeOver  : bool;    (* bit *)
  P3        : Z;       (* port 3, 8 bits *)
  at_pc     : pc
}.

(** State when [main] enters its loop: globals zeroed by the startup
    code, port 3 holding whatever it held ([p3]). *)
Definition reset (p3 : Z) : state := mkState 0 false p3 AtWait.

(** The ISR, with the threshold as a parameter [K]:
<<
	TimerTick++;
	if (TimerTick > NUM_INTS) { TimerTick = 0; TimeOver = 1; }
>> *)
Definition timer0 (K : Z) (st : state) : state :=
  let t := uint16 (TimerTick st + 1) in
  if t >? K
  then mkState 0 true (P3 st) (at_pc st)
  else mkState t (TimeOver st) (P3 st) (at_pc st).

(** One statement of the foreground loop. *)
Definition main_step (st : state) : state :=
  match at_pc st with
  | AtWait =>
      if TimeOver st
      then mkState (TimerTick st) (TimeOver st) (P3 st) AtToggle
      else st
  | AtToggle =>
      mkState (TimerTick st) (TimeOver st) (uint8 (Z.lxor (P3 st) 0x10)) AtClear
  | AtClear =>
      mkState (TimerTick st) false (P3 st) AtWait
  end.

(** The two execution contexts: a timer interrupt, or one foreground
    statement. *)
Inductive event : Type := Tick | Fg.

Definition step (K : Z) (e : event) (st : state) : state :=
  match e with
  | Tick => timer0 K st
  | Fg => main_step st
  end.

Fixpoint run (K : Z) (evs : list event) (st : state) : state :=
  match evs with
  | [] => st
  | e :: evs' => run K evs' (step K e st)
  end.

Fixpoint count_ticks (evs : list event) : nat :=
  match evs with
  | [] => O
  | Tick :: evs' => S (count_ticks evs')
  | Fg :: evs' => count_ticks evs'
  end.

(** The LED on P3.4. *)
Definition led (st : state) : bool := Z.testbit (P3 st) 4.

(** A schedule in which the foreground is fast: after every interrupt it
    gets through a whole pass of its loop (three statements). *)
Fixpoint serviced (n : nat) : list event :=
  match n with
  | O => []
  | S k => serviced k ++ [Tick; Fg; Fg; Fg]
  end.

End TimerFlag.

(** * Program 2: phase accumulator in the timer 0 ISR, walking LEDs *)

Module FreqGenAccum.

Definition HIGH_BYTE : Z := 0xFF00.
Definition LOW_BYTE : Z := 0xFF.
Definition TOP_BIT : Z := 0x80.
Definition LOW_NIBBLE : Z := 0x0F.

Record state : Type := mkState {
  Increment : Z;      (* uint8, global: written by main, read by the ISR *)
  Counter   : Z;      (* static uint16 of timer0 *)
  OUT_PIN   : bool;   (* P3.6 *)
  ET0       : bool;   (* timer 0 interrupt enable *)
  Swit      : Z;      (* uint8, local of main *)
  pattern   : Z;      (* static uint8 of LEDwalk *)
  direction : bool;   (* static bit of LEDwalk *)
  LED_BANK  : Z       (* port 0 *)
}.

(** State when [main] enters its loop: statics as initialised, globals
    zeroed, interrupt enable bits as after reset, the local [Swit] and the
    ports holding whatever they hold. *)
Definition reset (out : bool) (swit leds : Z) : state :=
  mkState 0 0 out false swit 1 true leds.

Definition set_Counter (c : Z) (st : state) : state :=
  mkState (Increment st) c (OUT_PIN st) (ET0 st) (Swit st)
          (pattern st) (direction st) (LED_BANK st).

Definition set_OUT_PIN (b : bool) (st : state) : state :=
  mkState (Increment st) (Counter st) b (ET0 st) (Swit st)
          (pattern st) (direction st) (LED_BANK st).

Definition set_Increment (v : Z) (st : state) : state :=
  mkState v (Counter st) (OUT_PIN st) (ET0 st) (Swit st)
          (pattern st) (direction st) (LED_BANK st).

Definition set_ET0 (b : bool) (st : state) : state :=
  mkState (Increment st) (Counter st) (OUT_PIN st) b (Swit st)
          (pattern st) (direction st) (LED_BANK st).

Definition set_Swit (v : Z) (st : state) : state :=
  mkState (Increment st) (Counter st) (OUT_PIN st) (ET0 st) v
          (pattern st) (direction st) (LED_BANK st).

Definition set_pattern (v : Z) (st : state) : state :=
  mkState (Increment st) (Counter st) (OUT_PIN st) (ET0 st) (Swit st)
          v (direction st) (LED_BANK st).

Definition set_direction (b : bool) (st : state) : state :=
  mkState (Increment st) (Counter st) (OUT_PIN st) (ET0 st) (Swit st)
          (pattern st) b (LED_BANK st).

Definition set_LED_BANK (v : Z) (st : state) : state :=
  mkState (Increment st) (Counter st) (OUT_PIN st) (ET0 st) (Swit st)
          (pattern st) (direction st) v.

(** The ISR:
<<
	Counter += Increment;
	if (Counter & HIGH_BYTE) { OUT_PIN = ~OUT_PIN; Counter &= LOW_BYTE; }
>> *)
Definition timer0 (st : state) : state :=
  let st1 := set_Counter (uint16 (Counter st + Increment st)) st in
  if negb (Z.land (Counter st1) HIGH_BYTE =? 0)
  then
    let st2 := set_OUT_PIN (negb (OUT_PIN st1)) st1 in
    set_Counter (Z.land (Counter st2) LOW_BYTE) st2
  else st1.

(** The hardware calls the ISR only while [ET0] is set ([EA] is set once
    and for all before the loop). *)
Definition interrupt (st : state) : state :=
  if ET0 st then timer0 st else st.

(** The walking pattern:
<<
	if (direction) { pattern <<= 1; if (pattern == 0x80) direction = 0; }
	else           { pattern >>= 1; if (pattern == 0x01) direction = 1; }
	LED_BANK = ~pattern;
>> *)
Definition LEDwalk (st : state) : state :=
  let st2 :=
    if direction st
    then
      let st1 := set_pattern (uint8 (Z.shiftl (pattern st) 1)) st in
      if pattern st1 =? 0x80 then set_direction false st1 else st1
    else
      let st1 := set_pattern (uint8 (Z.shiftr (pattern st) 1)) st in
      if pattern st1 =? 0x01 then set_direction true st1 else st1
  in
  set_LED_BANK (uint8 (Z.lnot (pattern st2))) st2.

(** The statements of the foreground loop; [ReadSwit sw] is the read of
    port 2, which yields the byte [sw]. *)
Inductive stmt : Type :=
| ReadSwit (sw : Z)     (* Swit = SWITCHES;                          *)
| SetET0                (* ET0 = ((Swit & TOP_BIT) == TOP_BIT);      *)
| SetIncrement          (* Increment = (Swit & LOW_NIBBLE) + 1;      *)
| CallLEDwalk           (* LEDwalk();                                *)
| CallDelay.            (* delay(60000);                             *)

Definition exec (s : stmt) (st : state) : option state :=
  match s with
  | ReadSwit sw => Some (set_Swit (uint8 sw) st)
  | SetET0 => Some (set_ET0 (Z.land (Swit st) TOP_BIT =? TOP_BIT) st)
  | SetIncrement =>
      Some (set_Increment (uint8 (Z.land (Swit st) LOW_NIBBLE + 1)) st)
  | CallLEDwalk => Some (LEDwalk st)
  | CallDelay => delay 60000 st
  end.

(** One pass of the [while (1)] loop of [main], in program order. *)
Definition main_loop (sw : Z) (st : state) : option state :=
  st1 <- exec (ReadSwit sw) st ;;
  st2 <- exec SetET0 st1 ;;
  st3 <- exec SetIncrement st2 ;;
  st4 <- exec CallLEDwalk st3 ;;
  exec CallDelay st4.

(** Interleavings: a timer expiry may come between any two foreground
    statements. *)
Inductive event : Type :=
| Tick
| Fg (s : stmt).

Definition step (e : event) (st : state) : option state :=
  match e with
  | Tick => Some (interrupt st)
  | Fg s => exec s st
  end.

Fixpoint run (evs : list event) (st : state) : option state :=
  match evs with
  | [] => Some st
  | e :: evs' => st' <- step e st ;; run evs' st'
  end.

(** Toggles of the output pin seen over [n] consecutive calls of the ISR:
    a call counts when the pin differs before and after it. *)
Fixpoint toggle_count (n : nat) (st : state) : Z :=
  match n with
  | O => 0
  | S k =>
      bit_of (xorb (OUT_PIN st) (OUT_PIN (timer0 st)))
      + toggle_count k (timer0 st)
  end.

(** The state from which the output frequency is counted: accumulator
    at 0, the increment [inc] in place, timer interrupt enabled. *)
Definition start (inc : Z) (out : bool) : state :=
  set_ET0 true (set_Increment inc (reset out 0xFF 0xFF)).

(** The ranges that the foreground statements and the interrupt keep:
    the accumulator is a byte, the increment at most 16 (it is 0 until the
    foreground stores it for the first time). *)
Definition in_range (st : state) : Prop :=
  0 <= Counter st <= 255 /\ 0 <= Increment st <= 16.

(** The state of the walk: the lit position and the direction. *)
Definition walk (st : state) : Z * bool := (pattern st, direction st).

(** Does the [n]-th call of the ISR (counting from 1) toggle the pin? *)
Definition toggles_at (n : nat) (st : state) : bool :=
  match n with
  | O => false
  | S k => xorb (OUT_PIN (iter k timer0 st)) (OUT_PIN (iter n timer0 st))
  end.

End FreqGenAccum.

(** * Program 3: timer 2 with reload values from a look-up table *)

Module FreqGen_timer2.

Definition FREQ_MASK : Z := 0x07.
Definition LOW_BYTE : Z := 0x00FF.

(** [code uint16 lookUp[8]]: reload values for 200, 300, 400, 600, 800,
    1600, 2400, 3600 Hz. *)
Definition lookUp : list Z :=
  [37888; 47104; 51712; 56320; 58624; 62080; 63232; 64000].

(** The output frequencies named in the comment above the table, and the
    clock frequency of the header comment (11.0592 MHz). *)
Definition frequencies : list Z := [200; 300; 400; 600; 800; 1600; 2400; 3600].
Definition CLOCK_HZ : Z := 11059200.

Record state : Type := mkState {
  OUT_PIN    : bool;   (* P3.6 *)
  TF2        : bool;   (* timer 2 overflow flag *)
  RCAP2L     : Z;      (* reload register, low byte *)
  RCAP2H     : Z;      (* reload register, high byte *)
  LED_BANK   : Z;      (* port 0 *)
  LED_PIN    : bool;   (* P3.4 *)
  SWITCHES   : Z;      (* port 2 latch *)
  T2CON      : Z;
  ET2        : bool;
  EA         : bool;
  temp       : Z;      (* uint8, local of main *)
  freqNum    : Z;      (* uint8, local of main *)
  reloadVal  : Z;      (* uint16, local of main *)
  flash      : bool;   (* bit, local of main *)
  lastButton : bool    (* bit, local of main *)
}.

Definition set_OUT_PIN (b : bool) (st : state) : state :=
  mkState b (TF2 st) (RCAP2L st) (RCAP2H st) (LED_BANK st) (LED_PIN st)
          (SWITCHES st) (T2CON st) (ET2 st) (EA st)
          (temp st) (freqNum st) (reloadVal st) (flash st) (lastButton st).

Definition set_TF2 (b : bool) (st : state) : state :=
  mkState (OUT_PIN st) b (RCAP2L st) (RCAP2H st) (LED_BANK st) (LED_PIN st)
          (SWITCHES st) (T2CON st) (ET2 st) (EA st)
          (temp st) (freqNum st) (reloadVal st) (flash st) (lastButton st).

Definition set_RCAP2L (v : Z) (st : state) : state :=
  mkState (OUT_PIN st) (TF2 st) v (RCAP2H st) (LED_BANK st) (LED_PIN st)
          (SWITCHES st) (T2CON st) (ET2 st) (EA st)
          (temp st) (freqNum st) (reloadVal st) (flash st) (lastButton st).

Definition set_RCAP2H (v : Z) (st : state) : state :=
  mkState (OUT_PIN st) (TF2 st) (RCAP2L st) v (LED_BANK st) (LED_PIN st)
          (SWITCHES st) (T2CON st) (ET2 st) (EA st)
          (temp st) (freqNum st) (reloadVal st) (flash st) (lastButton st).

Definition set_LED_BANK (v : Z) (st : state) : state :=
  mkState (OUT_PIN st) (TF2 st) (RCAP2L st) (RCAP2H st) v (LED_PIN st)
          (SWITCHES st) (T2CON st) (ET2 st) (EA st)
          (temp st) (freqNum st) (reloadVal st) (flash st) (lastButton st).

Definition set_LED_PIN (b : bool) (st : state) : state :=
  mkState (OUT_PIN st) (TF2 st) (RCAP2L st) (RCAP2H st) (LED_BANK st) b
          (SWITCHES st) (T2CON st) (ET2 st) (EA st)
          (temp st) (freqNum st) (reloadVal st) (flash st) (lastButton st).

Definition set_temp (v : Z) (st : state) : state :=
  mkState (OUT_PIN st) (TF2 st) (RCAP2L st) (RCAP2H st) (LED_BANK st)
          (LED_PIN st) (SWITCHES st) (T2CON st) (ET2 st) (EA st)
          v (freqNum st) (reloadVal st) (flash st) (lastButton st).

Definition set_freqNum (v : Z) (st : state) : state :=
  mkState (OUT_PIN st) (TF2 st) (RCAP2L st) (RCAP2H st) (LED_BANK st)
          (LED_PIN st) (SWITCHES st) (T2CON st) (ET2 st) (EA st)
          (temp st) v (reloadVal st) (flash st) (lastButton st).

Definition set_reloadVal (v : Z) (st : state) : state :=
  mkState (OUT_PIN st) (TF2 st) (RCAP2L st) (RCAP2H st) (LED_BANK st)
          (LED_PIN st) (SWITCHES st) (T2CON st) (ET2 st) (EA st)
          (temp st) (freqNum st) v (flash st) (lastButton st).

Definition set_flash (b : bool) (st : state) : state :=
  mkState (OUT_PIN st) (TF2 st) (RCAP2L st) (RCAP2H st) (LED_BANK st)
          (LED_PIN st) (SWITCHES st) (T2CON st) (ET2 st) (EA st)
          (temp st) (freqNum st) (reloadVal st) b (lastButton st).

Definition set_lastButton (b : bool) (st : state) : state :=
  mkState (OUT_PIN st) (TF2 st) (RCAP2L st) (RCAP2H st) (LED_BANK st)
          (LED_PIN st) (SWITCHES st) (T2CON st) (ET2 st) (EA st)
          (temp st) (freqNum st) (reloadVal st) (flash st) b.

(** The ISR:
<<
	OUT_PIN = ~OUT_PIN;
	TF2 = 0;
>> *)
Definition timer2 (st : state) : state :=
  let st1 := set_OUT_PIN (negb (OUT_PIN st)) st in
  set_TF2 false st1.

(** [main] up to the loop: the initialised locals and the set-up of the
    switch port and of timer 2; everything else is as [st] has it. *)
Definition main_setup (st : state) : state :=
  mkState (OUT_PIN st) (TF2 st) (RCAP2L st) (RCAP2H st) (LED_BANK st)
          (LED_PIN st)
          0xFF          (* SWITCHES = 0xFF; *)
          0x04          (* T2CON = 0x04;    *)
          true          (* ET2 = 1;         *)
          true          (* EA = 1;          *)
          (temp st) (freqNum st) (reloadVal st)
          true          (* bit flash = 1;      *)
          false.        (* bit lastButton = 0; *)

(** The registers at their reset values (ports at 0xFF, timer 2 stopped,
    interrupts disabled); the locals of [main] have no defined value
    before they are assigned, 0 stands for it. *)
Definition power_on : state :=
  mkState true false 0 0 0xFF true 0xFF 0 false false 0 0 0 false false.

(** One pass of the [while (1)] loop.  [sw] is the byte read from the
    switch port; [INT0] is read twice in a pass, [int0_test] in the test
    of the [if] and [int0_latch] in the assignment to [lastButton]. *)
Definition main_loop (sw : Z) (int0_test int0_latch : bool) (st : state)
  : option state :=
  (* temp = SWITCHES; *)
  let st := set_temp (uint8 sw) st in
  (* freqNum = temp & FREQ_MASK; *)
  let st := set_freqNum (uint8 (Z.land (temp st) FREQ_MASK)) st in
  (* reloadVal = lookUp[freqNum]; *)
  let st := set_reloadVal (nth (Z.to_nat (freqNum st)) lookUp 0) st in
  (* RCAP2L = reloadVal & LOW_BYTE; *)
  let st := set_RCAP2L (uint8 (Z.land (reloadVal st) LOW_BYTE)) st in
  (* RCAP2H = reloadVal >> 8; *)
  let st := set_RCAP2H (uint8 (Z.shiftr (reloadVal st) 8)) st in
  (* temp = 1; *)
  let st := set_temp 1 st in
  (* temp <<= freqNum; *)
  let st := set_temp (uint8 (Z.shiftl (temp st) (freqNum st))) st in
  (* LED_BANK = ~temp; *)
  let st := set_LED_BANK (uint8 (Z.lnot (temp st))) st in
  (* if (lastButton & ~INT0) flash = ~flash; *)
  let st :=
    if lastButton st && negb int0_test
    then set_flash (negb (flash st)) st
    else st in
  (* lastButton = INT0; *)
  let st := set_lastButton int0_latch st in
  (* if (flash) LED_PIN = ~LED_PIN; else LED_PIN = 1; *)
  let st :=
    if flash st
    then set_LED_PIN (negb (LED_PIN st)) st
    else set_LED_PIN true st in
  (* delay (60000); *)
  delay 60000 st.

(** A pass during which the button level does not change. *)
Definition pass (sw : Z) (int0 : bool) (st : state) : option state :=
  main_loop sw int0 int0 st.

(** Consecutive passes over a sequence of inputs (switch byte and button
    level); besides the final state, the list tells for each pass whether
    it changed [flash]. *)
Fixpoint passes (inputs : list (Z * bool)) (st : state)
  : option (state * list bool) :=
  match inputs with
  | [] => Some (st, [])
  | (sw, b) :: inputs' =>
      st' <- pass sw b st ;;
      r <- passes inputs' st' ;;
      Some (fst r, xorb (flash st) (flash st') :: snd r)
  end.

(** The 16-bit value held by the pair of reload registers. *)
Definition RCAP2 (st : state) : Z := RCAP2H st * 256 + RCAP2L st.

End FreqGen_timer2.

(** * Set-up code and observers for the further properties *)

(** ** Program 1: the set-up of timer 0 in [main]

<<
	TH0   = (unsigned char) PERIOD;
	TL0   = (unsigned char) PERIOD;
	TMOD |= 0x02;
	TR0   = 1;
	ET0   = 1;
	EA    = 1;
>> *)

Module TimerFlagSetup.

(** [#define PERIOD -250] *)
Definition PERIOD : Z := -250.

Record sfr : Type := mkSfr {
  TH0  : Z;      (* timer 0 reload value, 8 bits *)
  TL0  : Z;      (* timer 0 count, 8 bits *)
  TMOD : Z;      (* timer mode register, 8 bits *)
  TR0  : bool;   (* timer 0 run control *)
  ET0  : bool;   (* timer 0 interrupt enable *)
  EA   : bool    (* global interrupt enable *)
}.

(** The set-up with the period as a parameter. *)
Definition main_setup (period : Z) (r : sfr) : sfr :=
  let r := mkSfr (uint8 period) (TL0 r) (TMOD r) (TR0 r) (ET0 r) (EA r) in
  let r := mkSfr (TH0 r) (uint8 period) (TMOD r) (TR0 r) (ET0 r) (EA r) in
  let r := mkSfr (TH0 r) (TL0 r) (uint8 (Z.lor (TMOD r) 0x02))
                 (TR0 r) (ET0 r) (EA r) in
  let r := mkSfr (TH0 r) (TL0 r) (TMOD r) true (ET0 r) (EA r) in
  let r := mkSfr (TH0 r) (TL0 r) (TMOD r) (TR0 r) true (EA r) in
  mkSfr (TH0 r) (TL0 r) (TMOD r) (TR0 r) (ET0 r) true.

End TimerFlagSetup.

(** ** Program 1: counting the toggles of the LED along a schedule *)

Module TimerFlagTrace.

(** The foreground statement [P3 ^= 0x10] is executed by a foreground step
    taken at [AtToggle]. *)
Definition toggles_now (e : TimerFlag.event) (st : TimerFlag.state) : nat :=
  match e, TimerFlag.at_pc st with
  | TimerFlag.Fg, TimerFlag.AtToggle => 1
  | _, _ => 0
  end.

Fixpoint led_toggles (K : Z) (evs : list TimerFlag.event)
  (st : TimerFlag.state) : nat :=
  match evs with
  | [] => 0
  | e :: evs' =>
      toggles_now e st + led_toggles K evs' (TimerFlag.step K e st)
  end.

(** An event that the foreground has seen or will see without a further
    interrupt: the flag is up while it waits, or it is about to toggle. *)
Definition pending (st : TimerFlag.state) : nat :=
  match TimerFlag.at_pc st with
  | TimerFlag.AtWait => if TimerFlag.TimeOver st then 1 else 0
  | TimerFlag.AtToggle => 1
  | TimerFlag.AtClear => 0
  end.

End TimerFlagTrace.

(** ** Program 2: the walk in closed form *)

Module LEDwalkForm.

(** Position of the lit LED after [n] calls: up from 0 to 7 and down
    again, with period 14. *)
Definition position (n : nat) : Z :=
  let r := Z.of_nat (n mod 14) in
  if r <=? 7 then r else 14 - r.

(** Is the walk going left after [n] calls? *)
Definition leftwards (n : nat) : bool := Z.of_nat (n mod 14) <? 7.

End LEDwalkForm.

(** ** Program 3: falling edges of the button *)

Module ButtonEdges.



End ButtonEdges.

(** * Properties *)

(** ** Arithmetic helpers *)

Lemma uint16_small (z : Z) : 0 <= z < 65536 -> uint16 z = z.
Proof. intros H. unfold uint16. apply Z.mod_small. exact H. Qed.

Lemma uint8_small (z : Z) : 0 <= z < 256 -> uint8 z = z.
Proof. intros H. unfold uint8. apply Z.mod_small. exact H. Qed.

Lemma mod_succ (n m : Z) :
  0 < m ->
  (n + 1) mod m = if n mod m =? m - 1 then 0 else n mod m + 1.
Proof.
  intros Hm.
  pose proof (Z.mod_pos_bound n m Hm) as Hb.
  pose proof (Z.div_mod n m ltac:(lia)) as Hn.
  destruct (Z.eqb_spec (n mod m) (m - 1)) as [E | E].
  - symmetry. apply (Z.mod_unique (n + 1) m (n / m + 1) 0); lia.
  - symmetry. apply (Z.mod_unique (n + 1) m (n / m) (n mod m + 1)); lia.
Qed.

Lemma div_succ (n m : Z) :
  0 < m ->
  (n + 1) / m = if n mod m =? m - 1 then n / m + 1 else n / m.
Proof.
  intros Hm.
  pose proof (Z.mod_pos_bound n m Hm) as Hb.
  pose proof (Z.div_mod n m ltac:(lia)) as Hn.
  destruct (Z.eqb_spec (n mod m) (m - 1)) as [E | E].
  - symmetry. apply (Z.div_unique (n + 1) m (n / m + 1) 0); lia.
  - symmetry. apply (Z.div_unique (n + 1) m (n / m) (n mod m + 1)); lia.
Qed.

(** Case analysis on an integer below a given bound, through [nat]. *)
Lemma below_cases (P : Z -> Prop) (bound : nat) :
  (forall k : nat, (k < bound)%nat -> P (Z.of_nat k)) ->
  forall z : Z, 0 <= z < Z.of_nat bound -> P z.
Proof.
  intros HP z Hz.
  rewrite <- (Z2Nat.id z) by lia.
  apply HP. lia.
Qed.

Lemma iter_succ_r {S : Type} (n : nat) (f : S -> S) (st : S) :
  iter (Datatypes.S n) f st = f (iter n f st).
Proof.
  revert st. induction n as [| n IH]; intros st.
  - reflexivity.
  - change (iter (Datatypes.S (Datatypes.S n)) f st)
      with (iter (Datatypes.S n) f (f st)).
    rewrite IH. reflexivity.
Qed.

Lemma iter_add {S : Type} (n m : nat) (f : S -> S) (st : S) :
  iter (n + m) f st = iter m f (iter n f st).
Proof.
  revert st. induction n as [| n IH]; intros st; simpl.
  - reflexivity.
  - apply IH.
Qed.

(** ** The delay loop *)

Lemma delay_loop_spec (n : nat) :
  forall i d k fuel,
    0 <= i -> i + Z.of_nat n = d -> d <= 65535 -> (n < fuel)%nat ->
    delay_loop fuel i d k = Some (d, k + Z.of_nat n).
Proof.
  induction n as [| n IH]; intros i d k fuel Hi Hd Hmax Hfuel.
  - destruct fuel as [| fuel]; [lia |]. simpl.
    replace (i <? d) with false by (symmetry; apply Z.ltb_ge; lia).
    f_equal. f_equal; lia.
  - destruct fuel as [| fuel]; [lia |]. simpl.
    replace (i <? d) with true by (symmetry; apply Z.ltb_lt; lia).
    rewrite uint16_small by lia.
    rewrite (IH (i + 1) d (k + 1) fuel) by lia.
    f_equal. f_equal. lia.
Qed.

Lemma delay_loop_starved (fuel : nat) :
  forall i d k,
    0 <= i -> i + Z.of_nat fuel <= d -> d <= 65535 ->
    delay_loop fuel i d k = None.
Proof.
  induction fuel as [| fuel IH]; intros i d k Hi Hd Hmax.
  - reflexivity.
  - simpl.
    replace (i <? d) with true by (symmetry; apply Z.ltb_lt; lia).
    rewrite uint16_small by lia.
    apply IH; lia.
Qed.

Lemma delay_returns {S : Type} (delayVal : Z) (st : S) :
  delay delayVal st = Some st.
Proof.
  unfold delay.
  assert (Hr : 0 <= uint16 delayVal < 65536)
    by (unfold uint16; apply Z.mod_pos_bound; lia).
  rewrite (delay_loop_spec (Z.to_nat (uint16 delayVal)) 0 (uint16 delayVal) 0).
  - reflexivity.
  - lia.
  - lia.
  - lia.
  - unfold delay_fuel. lia.
Qed.

(** C10.  For every 16-bit argument the delay loop comes to its end: its
    body is executed exactly [delayVal] times ([i] ends at [delayVal],
    with no iteration at all for 0), the fuel of [delay] is enough for
    that, fewer than [delayVal + 1] tests are not, and the call gives the
    program state back as it got it. *)
Theorem delay_total (delayVal : Z) (Hrange : 0 <= delayVal <= 65535) :
  delay_loop delay_fuel 0 delayVal 0 = Some (delayVal, delayVal)
  /\ (forall fuel : nat,
        (Z.to_nat delayVal < fuel)%nat ->
        delay_loop fuel 0 delayVal 0 = Some (delayVal, delayVal))
  /\ (forall fuel : nat,
        (fuel <= Z.to_nat delayVal)%nat ->
        delay_loop fuel 0 delayVal 0 = None)
  /\ (forall (S : Type) (st : S), delay delayVal st = Some st).
Proof.
  assert (Hgen : forall fuel : nat,
             (Z.to_nat delayVal < fuel)%nat ->
             delay_loop fuel 0 delayVal 0 = Some (delayVal, delayVal)).
  { intros fuel Hfuel.
    rewrite (delay_loop_spec (Z.to_nat delayVal) 0 delayVal 0 fuel); try lia.
    f_equal. f_equal. lia. }
  split; [| split; [| split]].
  - apply Hgen. unfold delay_fuel. lia.
  - exact Hgen.
  - intros fuel Hfuel. apply delay_loop_starved; lia.
  - intros S st. apply delay_returns.
Qed.

Lemma delay_total_witness :
  0 <= 60000 <= 65535
  /\ delay_loop delay_fuel 0 60000 0 = Some (60000, 60000)
  /\ delay_loop delay_fuel 0 0 0 = Some (0, 0).
Proof.
  split; [lia |]. split.
  - exact (proj1 (delay_total 60000 ltac:(lia))).
  - exact (proj1 (delay_total 0 ltac:(lia))).
Defined.

(** ** Program 1: the event flag *)

Section TimerFlagProps.
Import TimerFlag.

Variable K : Z.
Hypothesis K_fits : 0 <= K < 65535.

Lemma timer0_counts (st : state) :
  0 <= TimerTick st <= K ->
  timer0 K st =
    if TimerTick st =? K
    then mkState 0 true (P3 st) (at_pc st)
    else mkState (TimerTick st + 1) (TimeOver st) (P3 st) (at_pc st).
Proof.
  intros Ht. unfold timer0.
  rewrite uint16_small by lia.
  destruct (Z.eqb_spec (TimerTick st) K) as [E | E].
  - replace (TimerTick st + 1 >? K) with true
      by (symmetry; apply Z.gtb_lt; lia).
    reflexivity.
  - replace (TimerTick st + 1 >? K) with false
      by (symmetry; rewrite Z.gtb_ltb; apply Z.ltb_ge; lia).
    reflexivity.
Qed.

Lemma main_step_TimerTick (st : state) :
  TimerTick (main_step st) = TimerTick st.
Proof.
  unfold main_step.
  destruct (at_pc st); [destruct (TimeOver st) |..]; reflexivity.
Qed.

Lemma run_app (evs1 evs2 : list event) (st : state) :
  run K (evs1 ++ evs2) st = run K evs2 (run K evs1 st).
Proof.
  revert st. induction evs1 as [| e evs1 IH]; intros st; simpl.
  - reflexivity.
  - apply IH.
Qed.

Lemma count_ticks_app (evs1 evs2 : list event) :
  count_ticks (evs1 ++ evs2) = (count_ticks evs1 + count_ticks evs2)%nat.
Proof.
  induction evs1 as [| [|] evs1 IH]; simpl; lia.
Qed.

(** Whatever the foreground does in between, the counter of the ISR is the
    number of interrupts so far, modulo [K + 1]. *)
Lemma TimerTick_run (evs : list event) (p3 : Z) :
  TimerTick (run K evs (reset p3)) = Z.of_nat (count_ticks evs) mod (K + 1).
Proof.
  induction evs as [| e evs IH] using rev_ind.
  - simpl. symmetry. apply Z.mod_0_l. lia.
  - rewrite run_app, count_ticks_app. simpl run.
    pose proof (Z.mod_pos_bound (Z.of_nat (count_ticks evs)) (K + 1)
                  ltac:(lia)) as Hb.
    destruct e; simpl step; simpl count_ticks.
    + rewrite timer0_counts by (rewrite IH; lia).
      replace (Z.of_nat (count_ticks evs + 1))
        with (Z.of_nat (count_ticks evs) + 1) by lia.
      rewrite mod_succ by lia.
      rewrite IH. replace (K + 1 - 1) with K by lia.
      destruct (Z.of_nat (count_ticks evs) mod (K + 1) =? K); reflexivity.
    + rewrite main_step_TimerTick, IH. f_equal. f_equal. lia.
Qed.

Lemma repeat_snoc {A : Type} (a : A) (n : nat) :
  repeat a (S n) = repeat a n ++ [a].
Proof.
  induction n as [| n IH].
  - reflexivity.
  - simpl in *. f_equal. exact IH.
Qed.

(** With no foreground statement in between, [M] interrupts leave this. *)
Lemma ticks_state (M : nat) (p3 : Z) :
  run K (repeat Tick M) (reset p3) =
    mkState (Z.of_nat M mod (K + 1)) (K + 1 <=? Z.of_nat M) p3 AtWait.
Proof.
  induction M as [| M IH].
  - cbn [repeat run]. change (Z.of_nat 0) with 0.
    rewrite Z.mod_0_l by lia.
    replace (K + 1 <=? 0) with false by (symmetry; apply Z.leb_gt; lia).
    reflexivity.
  - rewrite repeat_snoc, run_app, IH. simpl run. simpl step.
    pose proof (Z.mod_pos_bound (Z.of_nat M) (K + 1) ltac:(lia)) as Hb.
    pose proof (Z.div_mod (Z.of_nat M) (K + 1) ltac:(lia)) as Hd.
    rewrite timer0_counts by (simpl; lia).
    cbn [TimerTick TimeOver P3 at_pc].
    rewrite Nat2Z.inj_succ. unfold Z.succ.
    rewrite mod_succ by lia. replace (K + 1 - 1) with K by lia.
    destruct (Z.eqb_spec (Z.of_nat M mod (K + 1)) K) as [E | E].
    + f_equal. symmetry. apply Z.leb_le.
      assert (0 <= Z.of_nat M / (K + 1)) by (apply Z.div_pos; lia).
      nia.
    + f_equal.
      destruct (Z.leb_spec (K + 1) (Z.of_nat M)) as [L | L];
        symmetry; [apply Z.leb_le | apply Z.leb_gt]; try lia.
      rewrite Z.mod_small in E by lia. lia.
Qed.

(** The foreground alone, from a pending flag: one toggle, and only one
    however long it goes on. *)
Lemma foreground_consumes (j : nat) (t p3 : Z) :
  (3 <= j)%nat ->
  run K (repeat Fg j) (mkState t true p3 AtWait) =
    mkState t false (uint8 (Z.lxor p3 0x10)) AtWait.
Proof.
  intros Hj.
  destruct j as [| [| [| j]]]; try lia.
  simpl. clear Hj.
  induction j as [| j IH].
  - reflexivity.
  - simpl. exact IH.
Qed.

Lemma led_toggled (p3 : Z) :
  Z.testbit (uint8 (Z.lxor p3 0x10)) 4 = negb (Z.testbit p3 4).
Proof.
  unfold uint8. change 256 with (2 ^ 8).
  rewrite Z.mod_pow2_bits_low by lia.
  rewrite Z.lxor_spec. change (Z.testbit 0x10 4) with true.
  apply xorb_true_r.
Qed.

(** What a fast foreground leaves after [n] interrupts. *)
Lemma serviced_state (n : nat) (p3 : Z) :
  let st := run K (serviced n) (reset p3) in
  TimerTick st = Z.of_nat n mod (K + 1)
  /\ TimeOver st = false
  /\ at_pc st = AtWait
  /\ led st = xorb (Z.testbit p3 4) (Z.odd (Z.of_nat n / (K + 1))).
Proof.
  induction n as [| n IH].
  - cbn [serviced run]. unfold led, reset. cbn [TimerTick TimeOver P3 at_pc].
    change (Z.of_nat 0) with 0.
    rewrite Z.mod_0_l, Z.div_0_l by lia.
    change (Z.odd 0) with false.
    rewrite xorb_false_r. auto.
  - simpl serviced. rewrite run_app.
    destruct (run K (serviced n) (reset p3)) as [t f p c].
    unfold led in IH. cbn [TimerTick TimeOver P3 at_pc] in IH.
    destruct IH as (Ht & Hf & Hc & Hl). subst f c.
    pose proof (Z.mod_pos_bound (Z.of_nat n) (K + 1) ltac:(lia)) as Hb.
    rewrite Nat2Z.inj_succ. unfold Z.succ.
    rewrite mod_succ, div_succ by lia.
    replace (K + 1 - 1) with K by lia.
    rewrite <- Ht.
    cbn [run step].
    rewrite timer0_counts by (simpl; lia).
    cbn [TimerTick TimeOver P3 at_pc].
    destruct (Z.eqb_spec t K) as [E | E];
      unfold led; cbn [main_step TimerTick TimeOver P3 at_pc].
    + rewrite led_toggled, Hl.
      replace (Z.of_nat n / (K + 1) + 1) with (Z.succ (Z.of_nat n / (K + 1)))
        by lia.
      rewrite Z.odd_succ, <- Z.negb_odd.
      repeat split; try reflexivity.
      destruct (Z.testbit p3 4), (Z.odd (Z.of_nat n / (K + 1))); reflexivity.
    + repeat split; try reflexivity. exact Hl.
Qed.

Lemma serviced_led (n : nat) (p3 : Z) :
  led (run K (serviced n) (reset p3)) =
    xorb (led (reset p3)) (Z.odd (Z.of_nat n / (K + 1))).
Proof. exact (proj2 (proj2 (proj2 (serviced_state n p3)))). Qed.

(** C3.  With the threshold [K] and [TimerTick] starting at 0:
    - without the foreground, the flag is clear during the first [K]
      interrupts, is set by interrupt number [K + 1], and reads 1 after
      any larger number [M] of interrupts;
    - under any interleaving with the foreground, the counter of the ISR
      is the number of interrupts modulo [K + 1], and the next interrupt
      sets the flag when its number is a multiple of [K + 1] and leaves
      the flag alone otherwise: once per [K + 1] interrupts;
    - after [M > K + 1] interrupts that the foreground has not served, the
      foreground finds one event only: it toggles P3.4 once and clears the
      flag, however long it runs afterwards. *)
Theorem event_flag_timing :
  (forall (M : nat) (p3 : Z),
      TimeOver (run K (repeat Tick M) (reset p3)) = (K + 1 <=? Z.of_nat M))
  /\ (forall (evs : list event) (p3 : Z),
        let st := run K evs (reset p3) in
        let n := Z.of_nat (count_ticks evs) in
        TimerTick st = n mod (K + 1)
        /\ TimeOver (timer0 K st) =
             if (n + 1) mod (K + 1) =? 0 then true else TimeOver st)
  /\ (forall (M j : nat) (p3 : Z),
        K + 1 < Z.of_nat M -> (3 <= j)%nat ->
        let st := run K (repeat Tick M ++ repeat Fg j) (reset p3) in
        TimeOver (run K (repeat Tick M) (reset p3)) = true
        /\ P3 st = uint8 (Z.lxor p3 0x10)
        /\ led st = negb (Z.testbit p3 4)
        /\ TimeOver st = false
        /\ at_pc st = AtWait).
Proof.
  split; [| split].
  - intros M p3. rewrite ticks_state. reflexivity.
  - intros evs p3 st n. subst st n.
    pose proof (TimerTick_run evs p3) as Ht.
    pose proof (Z.mod_pos_bound (Z.of_nat (count_ticks evs)) (K + 1)
                  ltac:(lia)) as Hb.
    split; [exact Ht |].
    rewrite timer0_counts by (rewrite Ht; lia).
    rewrite mod_succ by lia. replace (K + 1 - 1) with K by lia.
    rewrite Ht.
    destruct (Z.eqb_spec (Z.of_nat (count_ticks evs) mod (K + 1)) K)
      as [E | E].
    + reflexivity.
    + replace (Z.of_nat (count_ticks evs) mod (K + 1) + 1 =? 0) with false
        by (symmetry; apply Z.eqb_neq; lia).
      reflexivity.
  - intros M j p3 HM Hj st. subst st.
    rewrite run_app, ticks_state.
    replace (K + 1 <=? Z.of_nat M) with true
      by (symmetry; apply Z.leb_le; lia).
    rewrite foreground_consumes by exact Hj.
    unfold led. cbn [TimerTick TimeOver P3 at_pc].
    rewrite led_toggled. repeat split; reflexivity.
Qed.

End TimerFlagProps.

Lemma event_flag_timing_witness :
  0 <= TimerFlag.NUM_INTS < 65535
  /\ TimerFlag.NUM_INTS + 1 < Z.of_nat (Z.to_nat 20000)
  /\ (3 <= 3)%nat
  /\ TimerFlag.P3
       (TimerFlag.run TimerFlag.NUM_INTS
          (repeat TimerFlag.Tick (Z.to_nat 20000) ++ repeat TimerFlag.Fg 3)
          (TimerFlag.reset 0xFF)) = 0xEF.
Proof.
  assert (HK : 0 <= TimerFlag.NUM_INTS < 65535)
    by (unfold TimerFlag.NUM_INTS; lia).
  assert (HM : TimerFlag.NUM_INTS + 1 < Z.of_nat (Z.to_nat 20000))
    by (unfold TimerFlag.NUM_INTS; lia).
  assert (Hj : (3 <= 3)%nat) by lia.
  split; [exact HK |]. split; [exact HM |]. split; [exact Hj |].
  destruct (event_flag_timing TimerFlag.NUM_INTS HK) as (_ & _ & H).
  destruct (H (Z.to_nat 20000) 3%nat 0xFF HM Hj) as (_ & HP & _).
  exact HP.
Defined.

(** C4.  With the threshold of the source and a foreground that serves
    every event at once, P3.4 after [n] interrupts is its first value
    flipped [n / (NUM_INTS + 1)] times.  So it is flipped for the first
    time by interrupt number [NUM_INTS + 1], after [2 * NUM_INTS]
    interrupts it is still in the second half of its first cycle, and it
    is back for the first time after [2 * (NUM_INTS + 1)] interrupts, from
    where on everything repeats. *)
Theorem output_cycle_length :
  (forall (n : nat) (p3 : Z),
      TimerFlag.led
        (TimerFlag.run TimerFlag.NUM_INTS (TimerFlag.serviced n)
           (TimerFlag.reset p3)) =
      xorb (TimerFlag.led (TimerFlag.reset p3))
           (Z.odd (Z.of_nat n / (TimerFlag.NUM_INTS + 1))))
  /\ (forall p3 : Z,
        TimerFlag.led
          (TimerFlag.run TimerFlag.NUM_INTS
             (TimerFlag.serviced (Z.to_nat (2 * TimerFlag.NUM_INTS)))
             (TimerFlag.reset p3)) =
        negb (TimerFlag.led (TimerFlag.reset p3)))
  /\ (forall (n : nat) (p3 : Z),
        TimerFlag.led
          (TimerFlag.run TimerFlag.NUM_INTS
             (TimerFlag.serviced
                (n + Z.to_nat (2 * (TimerFlag.NUM_INTS + 1))))
             (TimerFlag.reset p3)) =
        TimerFlag.led
          (TimerFlag.run TimerFlag.NUM_INTS (TimerFlag.serviced n)
             (TimerFlag.reset p3))).
Proof.
  assert (HK : 0 <= TimerFlag.NUM_INTS < 65535)
    by (unfold TimerFlag.NUM_INTS; lia).
  split; [| split].
  - intros n p3. apply serviced_led. exact HK.
  - intros p3. rewrite serviced_led by exact HK.
    rewrite Z2Nat.id by (unfold TimerFlag.NUM_INTS; lia).
    change (Z.odd (2 * TimerFlag.NUM_INTS / (TimerFlag.NUM_INTS + 1)))
      with true.
    apply xorb_true_r.
  - intros n p3. rewrite !serviced_led by exact HK.
    f_equal.
    rewrite Nat2Z.inj_add, Z2Nat.id by (unfold TimerFlag.NUM_INTS; lia).
    rewrite Z.div_add by (unfold TimerFlag.NUM_INTS; lia).
    rewrite Z.odd_add. change (Z.odd 2) with false.
    apply xorb_false_r.
Qed.

(** ** Program 2: the phase accumulator *)

Section FreqGenAccumProps.
Import FreqGenAccum.

Lemma testbit_HIGH_BYTE (n : Z) :
  Z.testbit HIGH_BYTE n = (8 <=? n) && (n <? 16).
Proof.
  destruct (Z.ltb_spec n 0) as [Hneg | Hpos].
  - rewrite Z.testbit_neg_r by lia.
    replace (8 <=? n) with false by (symmetry; apply Z.leb_gt; lia).
    reflexivity.
  - destruct (Z.lt_ge_cases n 16) as [Hlt | Hge].
    + revert n Hpos Hlt.
      enough (Hall : forall z : Z,
                 0 <= z < Z.of_nat 16 ->
                 Z.testbit HIGH_BYTE z = (8 <=? z) && (z <? 16))
        by (intros n Hpos Hlt; apply Hall; lia).
      apply below_cases. intros k Hk.
      do 16 (destruct k as [| k]; [reflexivity |]). lia.
    + rewrite Z.bits_above_log2.
      * replace (n <? 16) with false by (symmetry; apply Z.ltb_ge; lia).
        rewrite andb_false_r. reflexivity.
      * unfold HIGH_BYTE. lia.
      * change (Z.log2 HIGH_BYTE) with 15. lia.
Qed.

(** The test [Counter & HIGH_BYTE] of the ISR on a 16-bit value. *)
Lemma high_byte_test (c : Z) :
  0 <= c < 65536 ->
  (Z.land c HIGH_BYTE =? 0) = (c <? 256).
Proof.
  intros Hc.
  destruct (Z.ltb_spec c 256) as [Hlt | Hge].
  - apply Z.eqb_eq. apply Z.bits_inj'. intros n Hn.
    rewrite Z.land_spec, testbit_HIGH_BYTE, Z.bits_0.
    destruct (Z.leb_spec 8 n) as [H8 | H8].
    + destruct (Z.eq_dec c 0) as [-> | Hnz].
      * rewrite Z.bits_0. reflexivity.
      * rewrite Z.bits_above_log2; [reflexivity | lia |].
        assert (Z.log2 c < 8) by (apply Z.log2_lt_pow2; lia).
        lia.
    + apply andb_false_r.
  - apply Z.eqb_neq. intros Hz.
    assert (H8 : 8 <= Z.log2 c) by (apply Z.log2_le_pow2; lia).
    assert (H16 : Z.log2 c < 16) by (apply Z.log2_lt_pow2; lia).
    assert (Hbit : Z.testbit (Z.land c HIGH_BYTE) (Z.log2 c) = true).
    { rewrite Z.land_spec, testbit_HIGH_BYTE, Z.bit_log2 by lia.
      replace (8 <=? Z.log2 c) with true by (symmetry; apply Z.leb_le; lia).
      replace (Z.log2 c <? 16) with true by (symmetry; apply Z.ltb_lt; lia).
      reflexivity. }
    rewrite Hz, Z.bits_0 in Hbit. discriminate.
Qed.

Lemma low_byte_mask (c : Z) : Z.land c LOW_BYTE = c mod 256.
Proof.
  change LOW_BYTE with (Z.ones 8). rewrite Z.land_ones by lia. reflexivity.
Qed.

(** The ISR on a state that respects the ranges of its variables. *)
Lemma timer0_spec (st : state) :
  0 <= Counter st <= 255 -> 0 <= Increment st <= 255 ->
  timer0 st =
    if Counter st + Increment st <? 256
    then set_Counter (Counter st + Increment st) st
    else set_Counter (Counter st + Increment st - 256)
           (set_OUT_PIN (negb (OUT_PIN st)) st).
Proof.
  intros Hc Hi. unfold timer0.
  cbn [Counter set_Counter set_OUT_PIN OUT_PIN Increment ET0 Swit pattern
       direction LED_BANK].
  rewrite uint16_small by lia.
  rewrite high_byte_test by lia.
  destruct (Z.ltb_spec (Counter st + Increment st) 256) as [Hlt | Hge];
    cbn [negb].
  - reflexivity.
  - rewrite low_byte_mask. unfold set_Counter, set_OUT_PIN.
    cbn [Counter OUT_PIN Increment ET0 Swit pattern direction LED_BANK].
    f_equal.
    symmetry. apply (Z.mod_unique _ 256 1); lia.
Qed.

Lemma timer0_Counter (st : state) :
  0 <= Counter st <= 255 -> 0 <= Increment st <= 255 ->
  Counter (timer0 st) = (Counter st + Increment st) mod 256.
Proof.
  intros Hc Hi. rewrite timer0_spec by assumption.
  destruct (Z.ltb_spec (Counter st + Increment st) 256) as [Hlt | Hge];
    cbn [Counter set_Counter].
  - symmetry. apply Z.mod_small. lia.
  - apply (Z.mod_unique _ 256 1); lia.
Qed.

Lemma timer0_toggle (st : state) :
  0 <= Counter st <= 255 -> 0 <= Increment st <= 255 ->
  bit_of (xorb (OUT_PIN st) (OUT_PIN (timer0 st))) =
    (Counter st + Increment st) / 256.
Proof.
  intros Hc Hi. rewrite timer0_spec by assumption.
  destruct (Z.ltb_spec (Counter st + Increment st) 256) as [Hlt | Hge];
    cbn [OUT_PIN set_Counter set_OUT_PIN].
  - rewrite xorb_nilpotent. cbn [bit_of].
    symmetry. apply Z.div_small. lia.
  - replace (xorb (OUT_PIN st) (negb (OUT_PIN st))) with true
      by (destruct (OUT_PIN st); reflexivity).
    cbn [bit_of]. apply (Z.div_unique _ 256 1 (Counter st + Increment st - 256)); lia.
Qed.

Lemma timer0_Increment (st : state) : Increment (timer0 st) = Increment st.
Proof.
  unfold timer0.
  destruct (negb _); reflexivity.
Qed.

(** [n] calls of the ISR with a fixed increment: the accumulator holds the
    sum modulo 256 and the pin has been toggled once per carry. *)
Lemma accumulate (n : nat) :
  forall st : state,
    0 <= Counter st <= 255 -> 0 <= Increment st <= 255 ->
    Counter (iter n timer0 st)
      = (Counter st + Z.of_nat n * Increment st) mod 256
    /\ Increment (iter n timer0 st) = Increment st
    /\ toggle_count n st
      = (Counter st + Z.of_nat n * Increment st) / 256.
Proof.
  induction n as [| n IH]; intros st Hc Hi.
  - cbn [iter toggle_count]. change (Z.of_nat 0) with 0.
    rewrite Z.mul_0_l, Z.add_0_r.
    rewrite Z.mod_small, Z.div_small by lia. auto.
  - cbn [iter toggle_count].
    pose proof (timer0_Counter st Hc Hi) as HC.
    pose proof (timer0_Increment st) as HI.
    pose proof (Z.mod_pos_bound (Counter st + Increment st) 256 ltac:(lia))
      as Hb.
    destruct (IH (timer0 st)) as (IH1 & IH2 & IH3); [lia | lia |].
    rewrite IH1, IH2, IH3, HC, HI, timer0_toggle by assumption.
    pose proof (Z.div_mod (Counter st + Increment st) 256 ltac:(lia)) as Hd.
    rewrite Nat2Z.inj_succ. unfold Z.succ.
    assert (Hsum : Counter st + (Z.of_nat n + 1) * Increment st
                   = ((Counter st + Increment st) mod 256
                      + Z.of_nat n * Increment st)
                     + (Counter st + Increment st) / 256 * 256) by lia.
    rewrite Hsum, Z.mod_add, Z.div_add by lia.
    repeat split; lia.
Qed.

(** The carries so far, as a function of the number of calls. *)
Lemma toggles_at_carry (k : nat) (st : state) :
  0 <= Counter st <= 255 -> 0 <= Increment st <= 255 ->
  bit_of (toggles_at (S k) st) =
    (Counter st + Z.of_nat (S k) * Increment st) / 256
    - (Counter st + Z.of_nat k * Increment st) / 256.
Proof.
  intros Hc Hi. unfold toggles_at. rewrite iter_succ_r.
  destruct (accumulate k st Hc Hi) as (HC & HI & _).
  pose proof (Z.mod_pos_bound (Counter st + Z.of_nat k * Increment st) 256
                ltac:(lia)) as Hb.
  rewrite timer0_toggle by (rewrite ?HC, ?HI; lia).
  rewrite HC, HI.
  pose proof (Z.div_mod (Counter st + Z.of_nat k * Increment st) 256
                ltac:(lia)) as Hd.
  rewrite Nat2Z.inj_succ. unfold Z.succ.
  assert (Hsum : Counter st + (Z.of_nat k + 1) * Increment st
                 = ((Counter st + Z.of_nat k * Increment st) mod 256
                    + Increment st)
                   + (Counter st + Z.of_nat k * Increment st) / 256 * 256)
    by lia.
  rewrite Hsum, Z.div_add by lia. lia.
Qed.

(** A stretch of calls without a toggle has no carry. *)
Lemma quiet_stretch (d : nat) (a : nat) (st : state) :
  0 <= Counter st <= 255 -> 0 <= Increment st <= 255 ->
  (forall m : nat, (a < m <= a + d)%nat -> toggles_at m st = false) ->
  (Counter st + Z.of_nat (a + d) * Increment st) / 256
  = (Counter st + Z.of_nat a * Increment st) / 256.
Proof.
  intros Hc Hi. induction d as [| d IH]; intros Hquiet.
  - rewrite Nat.add_0_r. reflexivity.
  - rewrite <- IH by (intros m Hm; apply Hquiet; lia).
    pose proof (toggles_at_carry (a + d) st Hc Hi) as Hcarry.
    rewrite Hquiet in Hcarry by lia. cbn [bit_of] in Hcarry.
    replace (a + S d)%nat with (S (a + d)) by lia. lia.
Qed.

(** C1.  From [Counter = 0] and with a fixed increment between 1 and 16:
    after [N] calls of the ISR the output has been toggled
    [N * Increment / 256] times (integer division), which is within 1 of
    the exact quotient, and the accumulator holds the remainder; and
    between two consecutive toggles there are [256 / Increment] calls,
    rounded down or up. *)
Theorem phase_accumulator_rate
  (inc : Z) (Hinc : 1 <= inc <= 16)
  (st : state) (HC : Counter st = 0) (HI : Increment st = inc) :
  (forall N : nat,
      toggle_count N st = Z.of_nat N * inc / 256
      /\ 0 <= Z.of_nat N * inc - 256 * toggle_count N st < 256
      /\ Counter (iter N timer0 st) = (Z.of_nat N * inc) mod 256)
  /\ (forall a b : nat,
        (a < b)%nat ->
        toggles_at a st = true ->
        toggles_at b st = true ->
        (forall m : nat, (a < m < b)%nat -> toggles_at m st = false) ->
        256 / inc <= Z.of_nat b - Z.of_nat a
                  <= 256 / inc + (if 256 mod inc =? 0 then 0 else 1)).
Proof.
  assert (Hc : 0 <= Counter st <= 255) by lia.
  assert (Hi : 0 <= Increment st <= 255) by lia.
  split.
  - intros N. destruct (accumulate N st Hc Hi) as (H1 & _ & H3).
    rewrite HC, HI in H1, H3. cbn [Z.add] in H1, H3.
    rewrite H3, H1.
    pose proof (Z.div_mod (Z.of_nat N * inc) 256 ltac:(lia)) as Hd.
    pose proof (Z.mod_pos_bound (Z.of_nat N * inc) 256 ltac:(lia)) as Hb.
    repeat split; lia.
  - intros a b Hab Ha Hb Hquiet.
    destruct a as [| a]; [discriminate Ha |].
    destruct b as [| b]; [discriminate Hb |].
    pose proof (toggles_at_carry a st Hc Hi) as Ca.
    pose proof (toggles_at_carry b st Hc Hi) as Cb.
    rewrite Ha in Ca. rewrite Hb in Cb. cbn [bit_of] in Ca, Cb.
    pose proof (quiet_stretch (b - S a) (S a) st Hc Hi) as Q.
    replace (S a + (b - S a))%nat with b in Q by lia.
    specialize (Q ltac:(intros m Hm; apply Hquiet; lia)).
    rewrite HC, HI in Ca, Cb, Q. cbn [Z.add] in Ca, Cb, Q.
    rewrite !Nat2Z.inj_succ in *. unfold Z.succ in *.
    set (x := Z.of_nat a) in *. set (y := Z.of_nat b) in *.
    pose proof (Z.div_mod ((x + 1) * inc) 256 ltac:(lia)) as D1.
    pose proof (Z.mod_pos_bound ((x + 1) * inc) 256 ltac:(lia)) as B1.
    pose proof (Z.div_mod (x * inc) 256 ltac:(lia)) as D2.
    pose proof (Z.mod_pos_bound (x * inc) 256 ltac:(lia)) as B2.
    pose proof (Z.div_mod ((y + 1) * inc) 256 ltac:(lia)) as D3.
    pose proof (Z.mod_pos_bound ((y + 1) * inc) 256 ltac:(lia)) as B3.
    pose proof (Z.div_mod (y * inc) 256 ltac:(lia)) as D4.
    pose proof (Z.mod_pos_bound (y * inc) 256 ltac:(lia)) as B4.
    assert (Hlow : 256 < (y - x + 1) * inc) by lia.
    assert (Hhigh : (y - x - 1) * inc < 256) by lia.
    replace (y + 1 - (x + 1)) with (y - x) by lia.
    clear - Hinc Hlow Hhigh.
    set (g := y - x) in *. clearbody g. clear x y.
    revert g Hlow Hhigh.
    enough (Hall : forall z : Z,
               0 <= z < Z.of_nat 17 ->
               1 <= z ->
               forall g : Z,
                 256 < (g + 1) * z -> (g - 1) * z < 256 ->
                 256 / z <= g <= 256 / z + (if 256 mod z =? 0 then 0 else 1))
      by (apply Hall; lia).
    apply (below_cases
             (fun z => 1 <= z ->
                       forall g : Z,
                         256 < (g + 1) * z -> (g - 1) * z < 256 ->
                         256 / z <= g
                         <= 256 / z + (if 256 mod z =? 0 then 0 else 1))).
    intros k Hk.
    do 17 (destruct k as [| k]; [intros H1 g; cbn; lia |]). lia.
Qed.

Lemma nibble_plus_one (v : Z) : 1 <= uint8 (Z.land v LOW_NIBBLE + 1) <= 16.
Proof.
  change LOW_NIBBLE with (Z.ones 4). rewrite Z.land_ones by lia.
  pose proof (Z.mod_pos_bound v (2 ^ 4) ltac:(lia)) as Hb.
  change (2 ^ 4) with 16 in *.
  rewrite uint8_small by lia. lia.
Qed.

Lemma LEDwalk_frame (st : state) :
  Counter (LEDwalk st) = Counter st
  /\ Increment (LEDwalk st) = Increment st
  /\ OUT_PIN (LEDwalk st) = OUT_PIN st.
Proof.
  unfold LEDwalk.
  destruct (direction st);
    cbn [pattern set_pattern];
    match goal with |- context [if ?c then _ else _] => destruct c end;
    repeat split; reflexivity.
Qed.

Lemma exec_in_range (s : stmt) (st : state) :
  in_range st -> exists st', exec s st = Some st' /\ in_range st'.
Proof.
  intros [Hc Hi]. destruct s; cbn [exec].
  - eexists; split; [reflexivity |]. split; assumption.
  - eexists; split; [reflexivity |]. split; assumption.
  - eexists; split; [reflexivity |]. split; [exact Hc |].
    cbn [Increment set_Increment].
    pose proof (nibble_plus_one (Swit st)). lia.
  - eexists; split; [reflexivity |].
    destruct (LEDwalk_frame st) as (E1 & E2 & _).
    unfold in_range. rewrite E1, E2. split; assumption.
  - exists st. split; [apply delay_returns |]. split; assumption.
Qed.

Lemma interrupt_in_range (st : state) : in_range st -> in_range (interrupt st).
Proof.
  intros [Hc Hi]. unfold interrupt. destruct (ET0 st); [| split; assumption].
  split.
  - rewrite timer0_Counter by lia.
    pose proof (Z.mod_pos_bound (Counter st + Increment st) 256 ltac:(lia)).
    lia.
  - rewrite timer0_Increment. exact Hi.
Qed.

Lemma run_in_range (evs : list event) :
  forall st : state,
    in_range st -> exists st', run evs st = Some st' /\ in_range st'.
Proof.
  induction evs as [| e evs IH]; intros st Hst.
  - exists st. split; [reflexivity | exact Hst].
  - cbn [run]. destruct e as [| s]; cbn [step bind].
    + apply IH. apply interrupt_in_range. exact Hst.
    + destruct (exec_in_range s st Hst) as (st1 & E1 & H1).
      rewrite E1. cbn [bind]. apply IH. exact H1.
Qed.

(** C2.  The increment that the foreground stores is between 1 and 16.
    With such an increment and the accumulator between 0 and 255, a call
    of the ISR leaves the accumulator between 0 and 255; when the sum goes
    past 255 the call inverts the output pin (one toggle) and keeps the
    low byte of the sum, otherwise it keeps the sum and leaves the pin.
    From the start of [main], whatever the interleaving of timer expiries
    and foreground statements, the run goes through and the accumulator is
    between 0 and 255 at its end. *)
Theorem accumulator_invariant :
  (forall st st' : state,
      exec SetIncrement st = Some st' ->
      1 <= Increment st' <= 16
      /\ Increment st' = Z.land (Swit st) LOW_NIBBLE + 1)
  /\ (forall st : state,
        0 <= Counter st <= 255 -> 1 <= Increment st <= 16 ->
        0 <= Counter (timer0 st) <= 255
        /\ (255 < Counter st + Increment st ->
            OUT_PIN (timer0 st) = negb (OUT_PIN st)
            /\ Counter (timer0 st)
               = Z.land (Counter st + Increment st) LOW_BYTE
            /\ Counter (timer0 st) = Counter st + Increment st - 256)
        /\ (Counter st + Increment st <= 255 ->
            OUT_PIN (timer0 st) = OUT_PIN st
            /\ Counter (timer0 st) = Counter st + Increment st))
  /\ (forall (evs : list event) (out : bool) (swit leds : Z),
        exists st' : state,
          run evs (reset out swit leds) = Some st'
          /\ 0 <= Counter st' <= 255
          /\ 0 <= Increment st' <= 16).
Proof.
  split; [| split].
  - intros st st' E. cbn [exec] in E. injection E as <-.
    cbn [Increment set_Increment].
    pose proof (nibble_plus_one (Swit st)) as Hn.
    split; [exact Hn |].
    change LOW_NIBBLE with (Z.ones 4). rewrite Z.land_ones by lia.
    pose proof (Z.mod_pos_bound (Swit st) (2 ^ 4) ltac:(lia)) as Hb.
    change (2 ^ 4) with 16 in *.
    apply uint8_small. lia.
  - intros st Hc Hi.
    pose proof (timer0_spec st Hc ltac:(lia)) as Hspec.
    destruct (Z.ltb_spec (Counter st + Increment st) 256) as [Hlt | Hge];
      rewrite Hspec; cbn [Counter OUT_PIN set_Counter set_OUT_PIN].
    + split; [lia |]. split; [lia |]. intros _. split; reflexivity.
    + split; [lia |]. split; [| lia]. intros _.
      split; [reflexivity |]. split; [| reflexivity].
      rewrite low_byte_mask. apply (Z.mod_unique _ 256 1); lia.
  - intros evs out swit leds.
    destruct (run_in_range evs (reset out swit leds)) as (st' & E & Hc & Hi).
    + split; cbn; lia.
    + exists st'. auto.
Qed.

Lemma LEDwalk_agree (st1 st2 : state) :
  walk st1 = walk st2 -> walk (LEDwalk st1) = walk (LEDwalk st2).
Proof.
  destruct st1 as [i1 c1 o1 e1 s1 p1 d1 l1], st2 as [i2 c2 o2 e2 s2 p2 d2 l2].
  unfold walk. cbn [pattern direction]. intros E. injection E as -> ->.
  unfold LEDwalk.
  cbn [pattern direction set_pattern set_direction set_LED_BANK Increment
       Counter OUT_PIN ET0 Swit LED_BANK].
  destruct d2;
    cbn [pattern direction set_pattern set_direction set_LED_BANK Increment
         Counter OUT_PIN ET0 Swit LED_BANK];
    match goal with |- context [if ?c then _ else _] => destruct c end;
    reflexivity.
Qed.

Lemma iter_LEDwalk_agree (n : nat) :
  forall st1 st2 : state,
    walk st1 = walk st2 ->
    walk (iter n LEDwalk st1) = walk (iter n LEDwalk st2).
Proof.
  induction n as [| n IH]; intros st1 st2 E.
  - exact E.
  - cbn [iter]. apply IH. apply LEDwalk_agree. exact E.
Qed.

(** C7.  From the initial pattern 1 walking left ([direction = 1]), the
    seventh call of [LEDwalk] brings the pattern to 0x80 and turns the
    direction; the fourteenth brings back pattern 1 walking left, no
    earlier call does, and from any number of calls fourteen more give the
    same pattern and direction again. *)
Theorem LEDwalk_bounce (out : bool) (swit leds : Z) :
  walk (reset out swit leds) = (1, true)
  /\ walk (iter 7 LEDwalk (reset out swit leds)) = (0x80, false)
  /\ walk (iter 14 LEDwalk (reset out swit leds)) = (1, true)
  /\ map (fun k => walk (iter k LEDwalk (reset out swit leds))) (seq 0 15)
     = [(1, true); (2, true); (4, true); (8, true); (16, true); (32, true);
        (64, true); (128, false); (64, false); (32, false); (16, false);
        (8, false); (4, false); (2, false); (1, true)]
  /\ (forall n : nat,
        walk (iter (14 + n) LEDwalk (reset out swit leds))
        = walk (iter n LEDwalk (reset out swit leds)))
  /\ LED_BANK (iter 7 LEDwalk (reset out swit leds)) = 0x7F.
Proof.
  split; [reflexivity |].
  split; [vm_compute; reflexivity |].
  split; [vm_compute; reflexivity |].
  split; [vm_compute; reflexivity |].
  split; [| vm_compute; reflexivity].
  intros n. rewrite iter_add.
  apply iter_LEDwalk_agree. vm_compute. reflexivity.
Qed.

End FreqGenAccumProps.

Lemma phase_accumulator_rate_witness :
  1 <= 3 <= 16
  /\ FreqGenAccum.Counter (FreqGenAccum.start 3 true) = 0
  /\ FreqGenAccum.Increment (FreqGenAccum.start 3 true) = 3
  /\ FreqGenAccum.toggle_count 100 (FreqGenAccum.start 3 true) = 1
  /\ 256 / 3 <= Z.of_nat 171 - Z.of_nat 86
              <= 256 / 3 + (if 256 mod 3 =? 0 then 0 else 1).
Proof.
  assert (Hinc : 1 <= 3 <= 16) by lia.
  pose proof (phase_accumulator_rate 3 Hinc (FreqGenAccum.start 3 true)
                eq_refl eq_refl) as [Hcount Hgap].
  split; [exact Hinc |]. split; [reflexivity |]. split; [reflexivity |].
  split.
  - exact (proj1 (Hcount 100%nat)).
  - apply Hgap.
    + lia.
    + vm_compute. reflexivity.
    + vm_compute. reflexivity.
    + intros m Hm.
      assert (Hall : forallb
                       (fun k => negb (FreqGenAccum.toggles_at k
                                         (FreqGenAccum.start 3 true)))
                       (seq 87 84) = true)
        by (vm_compute; reflexivity).
      rewrite forallb_forall in Hall.
      specialize (Hall m ltac:(apply in_seq; lia)).
      destruct (FreqGenAccum.toggles_at m (FreqGenAccum.start 3 true));
        [discriminate Hall | reflexivity].
Defined.

Lemma accumulator_invariant_witness :
  0 <= FreqGenAccum.Counter
         (FreqGenAccum.set_Counter 250 (FreqGenAccum.start 16 true)) <= 255
  /\ 1 <= FreqGenAccum.Increment
            (FreqGenAccum.set_Counter 250 (FreqGenAccum.start 16 true)) <= 16
  /\ FreqGenAccum.Counter
       (FreqGenAccum.timer0
          (FreqGenAccum.set_Counter 250 (FreqGenAccum.start 16 true))) = 10
  /\ FreqGenAccum.OUT_PIN
       (FreqGenAccum.timer0
          (FreqGenAccum.set_Counter 250 (FreqGenAccum.start 16 true)))
     = false
  /\ FreqGenAccum.Increment
       (FreqGenAccum.set_Increment
          (uint8 (Z.land 0xFF FreqGenAccum.LOW_NIBBLE + 1))
          (FreqGenAccum.set_Swit 0xFF (FreqGenAccum.start 1 true))) = 16.
Proof.
  assert (Hc : 0 <= FreqGenAccum.Counter
                      (FreqGenAccum.set_Counter 250
                         (FreqGenAccum.start 16 true)) <= 255)
    by (cbn; lia).
  assert (Hi : 1 <= FreqGenAccum.Increment
                      (FreqGenAccum.set_Counter 250
                         (FreqGenAccum.start 16 true)) <= 16)
    by (cbn; lia).
  destruct accumulator_invariant as (Hmap & Hisr & _).
  destruct (Hisr _ Hc Hi) as (_ & Hover & _).
  destruct (Hover ltac:(cbn; lia)) as (Hpin & _ & Hcnt).
  split; [exact Hc |]. split; [exact Hi |].
  split; [exact Hcnt |]. split; [exact Hpin |].
  exact (proj2 (Hmap (FreqGenAccum.set_Swit 0xFF (FreqGenAccum.start 1 true))
                  _ eq_refl)).
Defined.

(** ** Program 3: reload values, the timer 2 ISR, button and flashing *)

Section FreqGen_timer2_Props.
Import FreqGen_timer2.

Lemma selector_range (v : Z) : 0 <= uint8 (Z.land v FREQ_MASK) <= 7.
Proof.
  change FREQ_MASK with (Z.ones 3). rewrite Z.land_ones by lia.
  pose proof (Z.mod_pos_bound v (2 ^ 3) ltac:(lia)) as Hb.
  change (2 ^ 3) with 8 in *.
  rewrite uint8_small by lia. lia.
Qed.

(** Splitting a table entry into the two reload registers loses nothing. *)
Lemma reload_bytes (s : Z) :
  0 <= s <= 7 ->
  let v := nth (Z.to_nat s) lookUp 0 in
  uint8 (Z.land v LOW_BYTE) = v mod 256
  /\ uint8 (Z.shiftr v 8) = v / 256
  /\ uint8 (Z.shiftr v 8) * 256 + uint8 (Z.land v LOW_BYTE) = v.
Proof.
  intros Hs. revert s Hs.
  enough (Hall : forall z : Z,
             0 <= z < Z.of_nat 8 ->
             let v := nth (Z.to_nat z) lookUp 0 in
             uint8 (Z.land v LOW_BYTE) = v mod 256
             /\ uint8 (Z.shiftr v 8) = v / 256
             /\ uint8 (Z.shiftr v 8) * 256 + uint8 (Z.land v LOW_BYTE) = v)
    by (intros s Hs; apply Hall; lia).
  apply below_cases. intros k Hk.
  do 8 (destruct k as [| k]; [vm_compute; repeat split; reflexivity |]). lia.
Qed.

(** What one pass of the loop leaves, field by field. *)
Lemma main_loop_spec (sw : Z) (b1 b2 : bool) (st : state) :
  exists st' : state,
    main_loop sw b1 b2 st = Some st'
    /\ freqNum st' = uint8 (Z.land (uint8 sw) FREQ_MASK)
    /\ reloadVal st' = nth (Z.to_nat (freqNum st')) lookUp 0
    /\ RCAP2L st' = uint8 (Z.land (reloadVal st') LOW_BYTE)
    /\ RCAP2H st' = uint8 (Z.shiftr (reloadVal st') 8)
    /\ LED_BANK st' = uint8 (Z.lnot (uint8 (Z.shiftl 1 (freqNum st'))))
    /\ flash st' = xorb (flash st) (lastButton st && negb b1)
    /\ lastButton st' = b2
    /\ LED_PIN st' = (if flash st' then negb (LED_PIN st) else true)
    /\ OUT_PIN st' = OUT_PIN st
    /\ TF2 st' = TF2 st.
Proof.
  unfold main_loop. rewrite delay_returns.
  eexists. split; [reflexivity |].
  destruct st as [o t l h lb lp s2 tc e2 ea tm fn rv fl lbt].
  cbn [OUT_PIN TF2 RCAP2L RCAP2H LED_BANK LED_PIN SWITCHES T2CON ET2 EA temp
       freqNum reloadVal flash lastButton
       set_OUT_PIN set_TF2 set_RCAP2L set_RCAP2H set_LED_BANK set_LED_PIN
       set_temp set_freqNum set_reloadVal set_flash set_lastButton].
  destruct lbt, b1, fl;
    cbn [andb negb xorb OUT_PIN TF2 RCAP2L RCAP2H LED_BANK LED_PIN SWITCHES
         T2CON ET2 EA temp freqNum reloadVal flash lastButton
         set_OUT_PIN set_TF2 set_RCAP2L set_RCAP2H set_LED_BANK set_LED_PIN
         set_temp set_freqNum set_reloadVal set_flash set_lastButton];
    repeat split; reflexivity.
Qed.

(** C5.  Whatever the state and the inputs, a pass of the loop goes
    through and leaves in the reload registers the table entry selected by
    the three low bits of the switch byte, low byte in [RCAP2L] and high
    byte in [RCAP2H]; for a selector [s] from 0 to 7 that is [lookUp[s]].
    The table is 37888, 47104, 51712, 56320, 58624, 62080, 63232, 64000,
    strictly increasing, and each entry is 65536 minus the number of clock
    cycles of half a period of its frequency (200 to 3600 Hz). *)
Theorem reload_selection :
  (forall (sw : Z) (b1 b2 : bool) (st : state),
      exists st' : state,
        main_loop sw b1 b2 st = Some st'
        /\ RCAP2 st'
           = nth (Z.to_nat (uint8 (Z.land (uint8 sw) FREQ_MASK))) lookUp 0)
  /\ (forall (s sw : Z) (b1 b2 : bool) (st : state),
        0 <= s <= 7 -> 0 <= sw <= 255 -> Z.land sw FREQ_MASK = s ->
        exists st' : state,
          main_loop sw b1 b2 st = Some st'
          /\ RCAP2 st' = nth (Z.to_nat s) lookUp 0
          /\ RCAP2L st' = nth (Z.to_nat s) lookUp 0 mod 256
          /\ RCAP2H st' = nth (Z.to_nat s) lookUp 0 / 256)
  /\ lookUp = [37888; 47104; 51712; 56320; 58624; 62080; 63232; 64000]
  /\ (forall i j : nat,
        (i < j < 8)%nat -> nth i lookUp 0 < nth j lookUp 0)
  /\ Forall2 (fun v f => (65536 - v) * (2 * f) = CLOCK_HZ) lookUp frequencies.
Proof.
  split; [| split; [| split; [| split]]].
  - intros sw b1 b2 st.
    destruct (main_loop_spec sw b1 b2 st)
      as (st' & E & Hf & Hr & Hl & Hh & _).
    exists st'. split; [exact E |].
    unfold RCAP2. rewrite Hh, Hl, Hr, Hf.
    apply (reload_bytes (uint8 (Z.land (uint8 sw) FREQ_MASK))).
    apply selector_range.
  - intros s sw b1 b2 st Hs Hsw Hsel.
    destruct (main_loop_spec sw b1 b2 st)
      as (st' & E & Hf & Hr & Hl & Hh & _).
    exists st'. split; [exact E |].
    rewrite (uint8_small sw) in Hf by lia. rewrite Hsel in Hf.
    rewrite (uint8_small s) in Hf by lia.
    rewrite Hf in Hr.
    destruct (reload_bytes s Hs) as (B1 & B2 & B3).
    unfold RCAP2. rewrite Hh, Hl, Hr. auto.
  - reflexivity.
  - intros i j Hij.
    unfold lookUp.
    do 8 (destruct j as [| j];
          [do 7 (destruct i as [| i]; [cbn [nth]; lia |]); lia |]).
    lia.
  - unfold lookUp, frequencies, CLOCK_HZ.
    repeat (constructor; [reflexivity |]). constructor.
Qed.

(** C6.  A call of the timer 2 ISR inverts the output pin, clears [TF2]
    and leaves every other register and variable as it was; and it reads
    none of them: the call commutes with any write to the selector, the
    reload registers, [flash], [lastButton] or the LEDs. *)
Theorem timer2_frame (st : state) :
  OUT_PIN (timer2 st) = negb (OUT_PIN st)
  /\ TF2 (timer2 st) = false
  /\ RCAP2L (timer2 st) = RCAP2L st
  /\ RCAP2H (timer2 st) = RCAP2H st
  /\ LED_BANK (timer2 st) = LED_BANK st
  /\ LED_PIN (timer2 st) = LED_PIN st
  /\ SWITCHES (timer2 st) = SWITCHES st
  /\ T2CON (timer2 st) = T2CON st
  /\ ET2 (timer2 st) = ET2 st
  /\ EA (timer2 st) = EA st
  /\ temp (timer2 st) = temp st
  /\ freqNum (timer2 st) = freqNum st
  /\ reloadVal (timer2 st) = reloadVal st
  /\ flash (timer2 st) = flash st
  /\ lastButton (timer2 st) = lastButton st
  /\ (forall v : Z,
        timer2 (set_temp v st) = set_temp v (timer2 st)
        /\ timer2 (set_freqNum v st) = set_freqNum v (timer2 st)
        /\ timer2 (set_reloadVal v st) = set_reloadVal v (timer2 st)
        /\ timer2 (set_RCAP2L v st) = set_RCAP2L v (timer2 st)
        /\ timer2 (set_RCAP2H v st) = set_RCAP2H v (timer2 st)
        /\ timer2 (set_LED_BANK v st) = set_LED_BANK v (timer2 st))
  /\ (forall b : bool,
        timer2 (set_flash b st) = set_flash b (timer2 st)
        /\ timer2 (set_lastButton b st) = set_lastButton b (timer2 st)
        /\ timer2 (set_LED_PIN b st) = set_LED_PIN b (timer2 st)).
Proof.
  repeat (split; [reflexivity |]).
  split; intros x; repeat split; reflexivity.
Qed.

(** C8.  A pass changes [flash] when the level recorded by the pass
    before was 1 and the button now reads 0, and in no other case.  So
    from [lastButton = 0] the levels 1, 1, 0, 0, 1 over five passes change
    [flash] in the third pass only, where the level falls from 1 to 0: at
    the end [flash] is the complement of what it was. *)
Theorem button_edge
  (s1 s2 s3 s4 s5 : Z) (st : state) (Hlast : lastButton st = false) :
  (exists st' : state,
      passes [(s1, true); (s2, true); (s3, false); (s4, false); (s5, true)] st
      = Some (st', [false; false; true; false; false])
      /\ flash st' = negb (flash st)
      /\ lastButton st' = true)
  /\ (forall (sw : Z) (level : bool) (st0 : state),
        exists st1 : state,
          pass sw level st0 = Some st1
          /\ xorb (flash st0) (flash st1) = lastButton st0 && negb level
          /\ lastButton st1 = level).
Proof.
  split.
  - cbn [passes]. unfold pass.
    destruct (main_loop_spec s1 true true st)
      as (st1 & E1 & _ & _ & _ & _ & _ & F1 & L1 & _).
    destruct (main_loop_spec s2 true true st1)
      as (st2 & E2 & _ & _ & _ & _ & _ & F2 & L2 & _).
    destruct (main_loop_spec s3 false false st2)
      as (st3 & E3 & _ & _ & _ & _ & _ & F3 & L3 & _).
    destruct (main_loop_spec s4 false false st3)
      as (st4 & E4 & _ & _ & _ & _ & _ & F4 & L4 & _).
    destruct (main_loop_spec s5 true true st4)
      as (st5 & E5 & _ & _ & _ & _ & _ & F5 & L5 & _).
    rewrite E1. cbn [bind]. rewrite E2. cbn [bind]. rewrite E3. cbn [bind].
    rewrite E4. cbn [bind]. rewrite E5. cbn [bind fst snd].
    exists st5.
    rewrite F5, L4, F4, L3, F3, L2, F2, L1, F1, Hlast.
    destruct (flash st); repeat split; try reflexivity; exact L5.
  - intros sw level st0. unfold pass.
    destruct (main_loop_spec sw level level st0)
      as (st1 & E1 & _ & _ & _ & _ & _ & F1 & L1 & _).
    exists st1. split; [exact E1 |]. split; [| exact L1].
    rewrite F1.
    destruct (flash st0), (lastButton st0), level; reflexivity.
Qed.

(** C9.  [main] starts with [flash = 1] (and [lastButton = 0]).  In every
    pass of the loop, with [flash] as the button check of that pass leaves
    it: when it is 1 the LED pin is inverted, once; when it is 0 the pin
    is written to 1, whatever it was. *)
Theorem flash_output :
  (forall st : state,
      flash (main_setup st) = true /\ lastButton (main_setup st) = false)
  /\ (forall (sw : Z) (b1 b2 : bool) (st : state),
        exists st' : state,
          main_loop sw b1 b2 st = Some st'
          /\ flash st' = xorb (flash st) (lastButton st && negb b1)
          /\ LED_PIN st' = (if flash st' then negb (LED_PIN st) else true)).
Proof.
  split.
  - intros st. split; reflexivity.
  - intros sw b1 b2 st.
    destruct (main_loop_spec sw b1 b2 st)
      as (st' & E & _ & _ & _ & _ & _ & F & _ & P & _).
    exists st'. auto.
Qed.

End FreqGen_timer2_Props.

Lemma reload_selection_witness :
  0 <= 5 <= 7
  /\ 0 <= 0xFD <= 255
  /\ Z.land 0xFD FreqGen_timer2.FREQ_MASK = 5
  /\ exists st' : FreqGen_timer2.state,
       FreqGen_timer2.main_loop 0xFD true true
         (FreqGen_timer2.main_setup FreqGen_timer2.power_on) = Some st'
       /\ FreqGen_timer2.RCAP2 st' = 62080.
Proof.
  assert (Hs : 0 <= 5 <= 7) by lia.
  assert (Hsw : 0 <= 0xFD <= 255) by lia.
  assert (Hsel : Z.land 0xFD FreqGen_timer2.FREQ_MASK = 5) by reflexivity.
  split; [exact Hs |]. split; [exact Hsw |]. split; [exact Hsel |].
  destruct reload_selection as (_ & Hsel8 & _).
  destruct (Hsel8 5 0xFD true true
              (FreqGen_timer2.main_setup FreqGen_timer2.power_on)
              Hs Hsw Hsel) as (st' & E & HR & _).
  exists st'. split; [exact E | exact HR].
Defined.

Lemma button_edge_witness :
  FreqGen_timer2.lastButton
    (FreqGen_timer2.main_setup FreqGen_timer2.power_on) = false
  /\ exists st' : FreqGen_timer2.state,
       FreqGen_timer2.passes
         [(0xFF, true); (0xFF, true); (0xFF, false); (0xFF, false);
          (0xFF, true)]
         (FreqGen_timer2.main_setup FreqGen_timer2.power_on)
       = Some (st', [false; false; true; false; false])
       /\ FreqGen_timer2.flash st' = false.
Proof.
  split; [reflexivity |].
  destruct (button_edge 0xFF 0xFF 0xFF 0xFF 0xFF
              (FreqGen_timer2.main_setup FreqGen_timer2.power_on) eq_refl)
    as ((st' & E & F & _) & _).
  exists st'. split; [exact E | exact F].
Defined.

(** * Further properties *)

(** ** Program 1: invariants of the flag protocol *)

Section TimerFlagMore.
Import TimerFlag TimerFlagTrace.

Variable K : Z.
Hypothesis K_fits : 0 <= K < 65535.

Lemma timer0_keeps (st : state) :
  P3 (timer0 K st) = P3 st /\ at_pc (timer0 K st) = at_pc st.
Proof.
  unfold timer0. destruct (uint16 (TimerTick st + 1) >? K); split; reflexivity.
Qed.

Lemma toggle_other_bits (p i : Z) :
  0 <= p < 256 -> i <> 4 ->
  Z.testbit (uint8 (Z.lxor p 0x10)) i = Z.testbit p i.
Proof.
  intros Hp Hi. unfold uint8. change 256 with (2 ^ 8) in *.
  destruct (Z.lt_ge_cases i 0) as [Hneg | Hnn].
  - rewrite !Z.testbit_neg_r by lia. reflexivity.
  - destruct (Z.lt_ge_cases i 8) as [Hlow | Hhigh].
    + rewrite Z.mod_pow2_bits_low by lia.
      rewrite Z.lxor_spec. change 0x10 with (2 ^ 4).
      rewrite Z.pow2_bits_false by lia.
      apply xorb_false_r.
    + rewrite Z.mod_pow2_bits_high by lia.
      rewrite <- (Z.mod_small p (2 ^ 8)) by lia.
      rewrite Z.mod_pow2_bits_high by lia. reflexivity.
Qed.

Lemma step_P3 (e : event) (st : state) :
  0 <= P3 st < 256 ->
  0 <= P3 (step K e st) < 256
  /\ (forall i : Z, i <> 4 ->
        Z.testbit (P3 (step K e st)) i = Z.testbit (P3 st) i).
Proof.
  intros Hp. destruct e; cbn [step].
  - destruct (timer0_keeps st) as [E _]. rewrite E. auto.
  - unfold main_step. destruct (at_pc st).
    + destruct (TimeOver st); cbn [P3]; auto.
    + cbn [P3]. split.
      * unfold uint8. apply Z.mod_pos_bound. lia.
      * intros i Hi. apply toggle_other_bits; assumption.
    + cbn [P3]. auto.
Qed.

Lemma run_P3 (evs : list event) :
  forall st : state,
    0 <= P3 st < 256 ->
    0 <= P3 (run K evs st) < 256
    /\ (forall i : Z, i <> 4 ->
          Z.testbit (P3 (run K evs st)) i = Z.testbit (P3 st) i).
Proof.
  induction evs as [| e evs IH]; intros st Hp.
  - cbn [run]. auto.
  - cbn [run]. destruct (step_P3 e st Hp) as [Hb Hbits].
    destruct (IH (step K e st) Hb) as [Hb' Hbits'].
    split; [exact Hb' |].
    intros i Hi. rewrite Hbits' by exact Hi. apply Hbits. exact Hi.
Qed.

(** X1.  Under any interleaving of interrupts and foreground statements
    from the start of the loop, the interrupt counter stays between 0 and
    the threshold. *)
Theorem TimerTick_bounded (evs : list event) (p3 : Z) :
  0 <= TimerTick (run K evs (reset p3)) <= K.
Proof.
  rewrite (TimerTick_run K K_fits).
  pose proof (Z.mod_pos_bound (Z.of_nat (count_ticks evs)) (K + 1)
                ltac:(lia)).
  lia.
Qed.

(** X2.  Under any interleaving, port 3 stays a byte and the program
    changes no bit of it but bit 4. *)
Theorem P3_other_bits (evs : list event) (p3 : Z) (Hbyte : 0 <= p3 < 256) :
  0 <= P3 (run K evs (reset p3)) < 256
  /\ (forall i : Z, i <> 4 ->
        Z.testbit (P3 (run K evs (reset p3))) i = Z.testbit p3 i).
Proof.
  apply (run_P3 evs (reset p3)). exact Hbyte.
Qed.

Lemma led_parity (evs : list event) :
  forall st : state,
    led (run K evs st) = xorb (led st) (Nat.odd (led_toggles K evs st)).
Proof.
  induction evs as [| e evs IH]; intros st.
  - cbn [run led_toggles]. change (Nat.odd 0) with false.
    rewrite xorb_false_r. reflexivity.
  - cbn [run led_toggles]. rewrite IH.
    destruct e; unfold toggles_now; cbn [step].
    + unfold led. destruct (timer0_keeps st) as [E _]. rewrite E.
      destruct (at_pc st); reflexivity.
    + unfold main_step, led.
      destruct (at_pc st); [destruct (TimeOver st) |..]; cbn [P3];
        try reflexivity.
      rewrite led_toggled.
      change (1 + led_toggles K evs
                    {| TimerTick := TimerTick st; TimeOver := TimeOver st;
                       P3 := uint8 (Z.lxor (P3 st) 16); at_pc := AtClear |})%nat
        with (S (led_toggles K evs
                    {| TimerTick := TimerTick st; TimeOver := TimeOver st;
                       P3 := uint8 (Z.lxor (P3 st) 16); at_pc := AtClear |})).
      rewrite Nat.odd_succ, <- Nat.negb_odd.
      destruct (Z.testbit (P3 st) 4), (Nat.odd _); reflexivity.
Qed.

Lemma led_toggles_bound (evs : list event) :
  forall st : state,
    0 <= TimerTick st <= K ->
    Z.of_nat (led_toggles K evs st)
    <= Z.of_nat (pending st)
       + (TimerTick st + Z.of_nat (count_ticks evs)) / (K + 1).
Proof.
  induction evs as [| e evs IH]; intros st Ht.
  - cbn [led_toggles count_ticks]. change (Z.of_nat 0) with 0.
    rewrite Z.add_0_r, Z.div_small by lia. lia.
  - cbn [led_toggles]. destruct e; unfold toggles_now; cbn [step count_ticks].
    + cbn [Nat.add].
      rewrite Nat2Z.inj_succ. unfold Z.succ.
      pose proof (timer0_counts K K_fits st Ht) as Hstep.
      destruct (Z.eqb_spec (TimerTick st) K) as [E | E].
      * specialize (IH (timer0 K st)). rewrite Hstep in IH |- *.
        cbn [TimerTick] in IH. specialize (IH ltac:(lia)).
        replace (TimerTick st + (Z.of_nat (count_ticks evs) + 1))
          with (Z.of_nat (count_ticks evs) + 1 * (K + 1)) by lia.
        rewrite Z.div_add by lia.
        cbn [Z.add] in IH.
        assert (Hp : Z.of_nat (pending
                       {| TimerTick := 0; TimeOver := true; P3 := P3 st;
                          at_pc := at_pc st |}) <= 1)
          by (unfold pending; cbn [at_pc TimeOver];
              destruct (at_pc st); cbn; lia).
        lia.
      * specialize (IH (timer0 K st)). rewrite Hstep in IH |- *.
        cbn [TimerTick] in IH. specialize (IH ltac:(lia)).
        replace (TimerTick st + (Z.of_nat (count_ticks evs) + 1))
          with (TimerTick st + 1 + Z.of_nat (count_ticks evs)) by lia.
        assert (Hp : pending
                       {| TimerTick := TimerTick st + 1;
                          TimeOver := TimeOver st; P3 := P3 st;
                          at_pc := at_pc st |} = pending st) by reflexivity.
        rewrite Hp in IH. exact IH.
    + specialize (IH (main_step st)).
      rewrite main_step_TimerTick in IH. specialize (IH Ht).
      revert IH. unfold main_step, pending.
      destruct st as [t f p c].
      cbn [TimerTick TimeOver P3 at_pc].
      destruct c; [destruct f |..];
        cbn [TimerTick TimeOver P3 at_pc Nat.add]; lia.
Qed.

(** X3.  Under any interleaving, the foreground toggles the LED at most
    once per event that the ISR has raised, that is at most
    [ticks / (K + 1)] times, and P3.4 is its first value flipped that many
    times. *)
Theorem toggles_follow_events (evs : list event) (p3 : Z) :
  Z.of_nat (led_toggles K evs (reset p3))
  <= Z.of_nat (count_ticks evs) / (K + 1)
  /\ led (run K evs (reset p3))
     = xorb (Z.testbit p3 4) (Nat.odd (led_toggles K evs (reset p3))).
Proof.
  split.
  - pose proof (led_toggles_bound evs (reset p3)) as H.
    cbn [reset TimerTick pending at_pc TimeOver] in H.
    specialize (H ltac:(lia)). cbn [Z.add] in H.
    change (Z.of_nat 0) with 0 in H. lia.
  - apply led_parity.
Qed.

Lemma ticks_keep (M : nat) :
  forall st : state,
    P3 (run K (repeat Tick M) st) = P3 st
    /\ at_pc (run K (repeat Tick M) st) = at_pc st
    /\ led_toggles K (repeat Tick M) st = 0%nat.
Proof.
  induction M as [| M IH]; intros st.
  - cbn [repeat run led_toggles]. auto.
  - cbn [repeat run led_toggles step].
    destruct (IH (timer0 K st)) as (E1 & E2 & E3).
    destruct (timer0_keeps st) as (F1 & F2).
    rewrite E1, E2, E3, F1, F2.
    unfold toggles_now. auto.
Qed.

Lemma count_ticks_repeat (M : nat) : count_ticks (repeat Tick M) = M.
Proof.
  induction M as [| M IH]; cbn [repeat count_ticks]; [| rewrite IH];
    reflexivity.
Qed.

Lemma led_toggles_app (evs1 evs2 : list event) :
  forall st : state,
    led_toggles K (evs1 ++ evs2) st
    = (led_toggles K evs1 st + led_toggles K evs2 (run K evs1 st))%nat.
Proof.
  induction evs1 as [| e evs1 IH]; intros st.
  - reflexivity.
  - cbn [app led_toggles run]. rewrite IH. lia.
Qed.

(** X4.  An event that the ISR raises while the foreground is between
    [P3 ^= 0x10] and [TimeOver = 0] is lost: whatever the number of
    interrupts in that window, the next foreground statement clears the
    flag and the foreground waits again, the port as it was.  Such a run
    exists from the start of the loop: two events raised, the LED toggled
    once. *)
Theorem event_lost_in_window :
  (forall (st : state) (M : nat),
      at_pc st = AtClear ->
      TimeOver (run K (repeat Tick M ++ [Fg]) st) = false
      /\ at_pc (run K (repeat Tick M ++ [Fg]) st) = AtWait
      /\ P3 (run K (repeat Tick M ++ [Fg]) st) = P3 st)
  /\ (forall p3 : Z,
        Z.of_nat
          (count_ticks
             (repeat Tick (Z.to_nat (K + 1)) ++ [Fg; Fg]
              ++ repeat Tick (Z.to_nat (K + 1)) ++ [Fg])) / (K + 1) = 2
        /\ led_toggles K
             (repeat Tick (Z.to_nat (K + 1)) ++ [Fg; Fg]
              ++ repeat Tick (Z.to_nat (K + 1)) ++ [Fg]) (reset p3) = 1%nat
        /\ TimeOver
             (run K
                (repeat Tick (Z.to_nat (K + 1)) ++ [Fg; Fg]
                 ++ repeat Tick (Z.to_nat (K + 1)) ++ [Fg]) (reset p3))
           = false
        /\ at_pc
             (run K
                (repeat Tick (Z.to_nat (K + 1)) ++ [Fg; Fg]
                 ++ repeat Tick (Z.to_nat (K + 1)) ++ [Fg]) (reset p3))
           = AtWait).
Proof.
  assert (Hwindow : forall (st : state) (M : nat),
             at_pc st = AtClear ->
             TimeOver (run K (repeat Tick M ++ [Fg]) st) = false
             /\ at_pc (run K (repeat Tick M ++ [Fg]) st) = AtWait
             /\ P3 (run K (repeat Tick M ++ [Fg]) st) = P3 st).
  { intros st M Hpc. rewrite run_app.
    destruct (ticks_keep M st) as (E1 & E2 & _).
    cbn [run step]. unfold main_step. rewrite E2, Hpc.
    cbn [TimeOver at_pc P3]. auto. }
  split; [exact Hwindow |].
  intros p3.
  assert (Hfirst : run K (repeat Tick (Z.to_nat (K + 1))) (reset p3)
                   = mkState 0 true p3 AtWait).
  { rewrite (ticks_state K K_fits).
    rewrite Z2Nat.id by lia.
    rewrite Z.mod_same by lia.
    replace (K + 1 <=? K + 1) with true by (symmetry; apply Z.leb_le; lia).
    reflexivity. }
  split; [| split].
  - rewrite !count_ticks_app, !count_ticks_repeat. cbn [count_ticks].
    replace (Z.of_nat (Z.to_nat (K + 1) + (0 + (Z.to_nat (K + 1) + 0))))
      with (0 + 2 * (K + 1)) by lia.
    rewrite Z.div_add by lia. reflexivity.
  - rewrite led_toggles_app.
    destruct (ticks_keep (Z.to_nat (K + 1)) (reset p3)) as (_ & _ & T1).
    rewrite T1, Hfirst.
    rewrite (led_toggles_app [Fg; Fg]).
    cbn [led_toggles run step main_step at_pc TimeOver TimerTick P3].
    unfold toggles_now. cbn [at_pc].
    rewrite led_toggles_app.
    destruct (ticks_keep (Z.to_nat (K + 1))
                (mkState 0 true (uint8 (Z.lxor p3 16)) AtClear))
      as (_ & E2 & T2).
    rewrite T2. cbn [led_toggles]. unfold toggles_now. rewrite E2.
    reflexivity.
  - rewrite run_app, Hfirst.
    rewrite (run_app K [Fg; Fg]).
    cbn [run step main_step at_pc TimeOver TimerTick P3].
    destruct (Hwindow (mkState 0 true (uint8 (Z.lxor p3 16)) AtClear)
                (Z.to_nat (K + 1)) eq_refl) as (W1 & W2 & _).
    auto.
Qed.

End TimerFlagMore.

Lemma TimerTick_bounded_witness :
  0 <= TimerFlag.NUM_INTS < 65535
  /\ 0 <= TimerFlag.TimerTick
            (TimerFlag.run TimerFlag.NUM_INTS
               [TimerFlag.Tick; TimerFlag.Fg; TimerFlag.Tick]
               (TimerFlag.reset 0xFF)) <= TimerFlag.NUM_INTS.
Proof.
  assert (HK : 0 <= TimerFlag.NUM_INTS < 65535)
    by (unfold TimerFlag.NUM_INTS; lia).
  split; [exact HK |].
  exact (TimerTick_bounded TimerFlag.NUM_INTS HK
           [TimerFlag.Tick; TimerFlag.Fg; TimerFlag.Tick] 0xFF).
Defined.

Lemma P3_other_bits_witness :
  0 <= 0xFF < 256
  /\ Z.testbit
       (TimerFlag.P3
          (TimerFlag.run TimerFlag.NUM_INTS
             (TimerFlag.serviced 2) (TimerFlag.reset 0xFF))) 6
     = Z.testbit 0xFF 6.
Proof.
  assert (Hb : 0 <= 0xFF < 256) by lia.
  split; [exact Hb |].
  apply (proj2 (P3_other_bits TimerFlag.NUM_INTS (TimerFlag.serviced 2)
                  0xFF Hb)).
  lia.
Defined.

Lemma toggles_follow_events_witness :
  0 <= TimerFlag.NUM_INTS < 65535
  /\ Z.of_nat
       (TimerFlagTrace.led_toggles TimerFlag.NUM_INTS
          [TimerFlag.Tick; TimerFlag.Fg; TimerFlag.Fg]
          (TimerFlag.reset 0xFF))
     <= Z.of_nat (TimerFlag.count_ticks
                    [TimerFlag.Tick; TimerFlag.Fg; TimerFlag.Fg])
        / (TimerFlag.NUM_INTS + 1).
Proof.
  assert (HK : 0 <= TimerFlag.NUM_INTS < 65535)
    by (unfold TimerFlag.NUM_INTS; lia).
  split; [exact HK |].
  exact (proj1 (toggles_follow_events TimerFlag.NUM_INTS HK
                  [TimerFlag.Tick; TimerFlag.Fg; TimerFlag.Fg] 0xFF)).
Defined.

Lemma event_lost_in_window_witness :
  0 <= TimerFlag.NUM_INTS < 65535
  /\ TimerFlag.at_pc (TimerFlag.mkState 5 true 0xEF TimerFlag.AtClear)
     = TimerFlag.AtClear
  /\ TimerFlag.TimeOver
       (TimerFlag.run TimerFlag.NUM_INTS
          (repeat TimerFlag.Tick 3 ++ [TimerFlag.Fg])
          (TimerFlag.mkState 5 true 0xEF TimerFlag.AtClear)) = false.
Proof.
  assert (HK : 0 <= TimerFlag.NUM_INTS < 65535)
    by (unfold TimerFlag.NUM_INTS; lia).
  split; [exact HK |]. split; [reflexivity |].
  exact (proj1 (proj1 (event_lost_in_window TimerFlag.NUM_INTS HK)
                  (TimerFlag.mkState 5 true 0xEF TimerFlag.AtClear)
                  3%nat eq_refl)).
Defined.

(** ** Program 1: the set-up of timer 0 *)

Section TimerFlagSetupProps.
Import TimerFlagSetup.

Lemma byte_high_bits (v i : Z) :
  0 <= v < 256 -> 8 <= i -> Z.testbit v i = false.
Proof.
  intros Hv Hi. rewrite <- (Z.mod_small v (2 ^ 8)) by (change (2 ^ 8) with 256; lia).
  apply Z.mod_pow2_bits_high. lia.
Qed.

(** X5.  For a period of 1 to 256 clock cycles, written as a negative
    number, the set-up loads [256 + period] into both the reload and the
    count register, so that the first cycle is as long as the others and
    the timer overflows after [- period] counts.  It starts the timer and
    enables its interrupt.  In [TMOD] it sets bit 1 and leaves every other
    bit as it was: the mode bit 0 of timer 0 and the bits of timer 1 are
    not touched. *)
Theorem timer0_setup
  (period : Z) (r : sfr)
  (Hperiod : -256 <= period < 0) (Hmode : 0 <= TMOD r < 256) :
  TH0 (main_setup period r) = 256 + period
  /\ TL0 (main_setup period r) = TH0 (main_setup period r)
  /\ 256 - TH0 (main_setup period r) = - period
  /\ TR0 (main_setup period r) = true
  /\ ET0 (main_setup period r) = true
  /\ EA (main_setup period r) = true
  /\ 0 <= TMOD (main_setup period r) < 256
  /\ Z.testbit (TMOD (main_setup period r)) 1 = true
  /\ (forall i : Z,
        i <> 1 ->
        Z.testbit (TMOD (main_setup period r)) i = Z.testbit (TMOD r) i).
Proof.
  unfold main_setup. cbn [TH0 TL0 TMOD TR0 ET0 EA].
  assert (Hu : uint8 period = 256 + period).
  { unfold uint8. symmetry. apply (Z.mod_unique period 256 (-1)); lia. }
  rewrite Hu.
  repeat (split; [first [reflexivity | lia] |]).
  split; [unfold uint8; apply Z.mod_pos_bound; lia |].
  unfold uint8. change 256 with (2 ^ 8) in *. split.
  - rewrite Z.mod_pow2_bits_low by lia.
    rewrite Z.lor_spec. change (Z.testbit 2 1) with true.
    apply orb_true_r.
  - intros i Hi.
    destruct (Z.lt_ge_cases i 0) as [Hneg | Hnn].
    + rewrite !Z.testbit_neg_r by lia. reflexivity.
    + destruct (Z.lt_ge_cases i 8) as [Hlow | Hhigh].
      * rewrite Z.mod_pow2_bits_low by lia.
        rewrite Z.lor_spec. change 2 with (2 ^ 1) at 1.
        rewrite Z.pow2_bits_false by lia.
        apply orb_false_r.
      * rewrite Z.mod_pow2_bits_high by lia.
        symmetry. apply byte_high_bits; [change (2 ^ 8) with 256 in Hmode |];
          lia.
Qed.

End TimerFlagSetupProps.

Lemma timer0_setup_witness :
  -256 <= TimerFlagSetup.PERIOD < 0
  /\ 0 <= TimerFlagSetup.TMOD
            (TimerFlagSetup.mkSfr 0 0 0x10 false false false) < 256
  /\ TimerFlagSetup.TH0
       (TimerFlagSetup.main_setup TimerFlagSetup.PERIOD
          (TimerFlagSetup.mkSfr 0 0 0x10 false false false)) = 6.
Proof.
  assert (Hp : -256 <= TimerFlagSetup.PERIOD < 0)
    by (unfold TimerFlagSetup.PERIOD; lia).
  assert (Hm : 0 <= TimerFlagSetup.TMOD
                      (TimerFlagSetup.mkSfr 0 0 0x10 false false false) < 256)
    by (cbn; lia).
  split; [exact Hp |]. split; [exact Hm |].
  exact (proj1 (timer0_setup TimerFlagSetup.PERIOD
                  (TimerFlagSetup.mkSfr 0 0 0x10 false false false) Hp Hm)).
Defined.

(** ** Program 2: the output wave, the interrupt enable, the walk *)

Section FreqGenAccumMore.
Import FreqGenAccum LEDwalkForm.

Lemma out_parity (n : nat) :
  forall st : state,
    OUT_PIN (iter n timer0 st)
    = xorb (OUT_PIN st) (Z.odd (toggle_count n st)).
Proof.
  induction n as [| n IH]; intros st.
  - cbn [iter toggle_count]. change (Z.odd 0) with false.
    rewrite xorb_false_r. reflexivity.
  - cbn [iter toggle_count]. rewrite IH, Z.odd_add.
    destruct (OUT_PIN st), (OUT_PIN (timer0 st)),
      (Z.odd (toggle_count n (timer0 st))); reflexivity.
Qed.

Lemma timer0_others (st : state) :
  timer0 st
  = set_Counter (Counter (timer0 st)) (set_OUT_PIN (OUT_PIN (timer0 st)) st).
Proof.
  destruct st as [i c o e s p d l]. unfold timer0.
  cbn [Counter OUT_PIN Increment ET0 Swit pattern direction LED_BANK
       set_Counter set_OUT_PIN].
  destruct (negb (Z.land (uint16 (c + i)) HIGH_BYTE =? 0)); reflexivity.
Qed.

Lemma iter_timer0_others (n : nat) (st : state) :
  iter n timer0 st
  = set_Counter (Counter (iter n timer0 st))
      (set_OUT_PIN (OUT_PIN (iter n timer0 st)) st).
Proof.
  induction n as [| n IH].
  - destruct st; reflexivity.
  - rewrite iter_succ_r.
    set (X := iter n timer0 st) in *.
    rewrite (timer0_others X).
    cbn [Counter OUT_PIN set_Counter set_OUT_PIN].
    rewrite IH. destruct st; reflexivity.
Qed.

(** X6.  With the accumulator and the increment in their byte ranges, the
    output pin after [N] interrupts is its first value flipped
    [(Counter + N * Increment) / 256] times. *)
Theorem output_waveform
  (st : state) (N : nat)
  (Hc : 0 <= Counter st <= 255) (Hi : 0 <= Increment st <= 255) :
  OUT_PIN (iter N timer0 st)
  = xorb (OUT_PIN st)
         (Z.odd ((Counter st + Z.of_nat N * Increment st) / 256)).
Proof.
  rewrite out_parity.
  destruct (accumulate N st Hc Hi) as (_ & _ & Ht).
  rewrite Ht. reflexivity.
Qed.

(** X7.  Whatever the increment, 512 interrupts bring the ISR back to the
    state it started from, after [2 * Increment] toggles: the output makes
    [Increment] full cycles per 512 interrupts, that is steps of 200 Hz at
    102.4 kHz. *)
Theorem accumulator_period
  (st : state)
  (Hc : 0 <= Counter st <= 255) (Hi : 0 <= Increment st <= 255) :
  iter 512 timer0 st = st
  /\ toggle_count 512 st = 2 * Increment st.
Proof.
  destruct (accumulate 512 st Hc Hi) as (HC & _ & HT).
  pose proof (out_parity 512 st) as HO. rewrite HT in HO.
  change (Z.of_nat 512) with 512 in *.
  replace (Counter st + 512 * Increment st)
    with (Counter st + 2 * Increment st * 256) in * by lia.
  rewrite Z.mod_add, Z.mod_small in HC by lia.
  rewrite Z.div_add, Z.div_small, Z.add_0_l in HT, HO by lia.
  rewrite Z.odd_mul in HO. change (Z.odd 2) with false in HO.
  cbn [andb] in HO. rewrite xorb_false_r in HO.
  split; [| exact HT].
  rewrite iter_timer0_others, HC, HO.
  destruct st; reflexivity.
Qed.

Lemma top_bit_test (v : Z) :
  (Z.land v TOP_BIT =? TOP_BIT) = Z.testbit v 7.
Proof.
  change TOP_BIT with (2 ^ 7).
  destruct (Z.testbit v 7) eqn:Hb.
  - apply Z.eqb_eq. apply Z.bits_inj'. intros n Hn.
    rewrite Z.land_spec, Z.pow2_bits_eqb by lia.
    destruct (Z.eqb_spec 7 n) as [<- | Hne].
    + rewrite Hb. reflexivity.
    + apply andb_false_r.
  - apply Z.eqb_neq. intros E.
    assert (H7 : Z.testbit (Z.land v (2 ^ 7)) 7 = true)
      by (rewrite E; apply Z.pow2_bits_true; lia).
    rewrite Z.land_spec, Hb in H7. discriminate.
Qed.

Lemma LEDwalk_keeps (st : state) :
  Counter (LEDwalk st) = Counter st
  /\ OUT_PIN (LEDwalk st) = OUT_PIN st
  /\ ET0 (LEDwalk st) = ET0 st
  /\ Increment (LEDwalk st) = Increment st.
Proof.
  destruct st as [i c o e s p d l]. unfold LEDwalk.
  cbn [direction pattern set_pattern].
  destruct d; cbn [pattern set_pattern];
    match goal with |- context [if ?b then _ else _] => destruct b end;
    repeat split; reflexivity.
Qed.

Lemma exec_keeps (s : stmt) (st : state) :
  exists st' : state,
    exec s st = Some st'
    /\ Counter st' = Counter st
    /\ OUT_PIN st' = OUT_PIN st
    /\ (s <> SetET0 -> ET0 st' = ET0 st).
Proof.
  destruct s; cbn [exec].
  - eexists. split; [reflexivity |]. repeat split; reflexivity.
  - eexists. split; [reflexivity |]. repeat split; try reflexivity.
    intros H. contradiction H. reflexivity.
  - eexists. split; [reflexivity |]. repeat split; reflexivity.
  - eexists. split; [reflexivity |].
    destruct (LEDwalk_keeps st) as (E1 & E2 & E3 & _).
    repeat split; intros; assumption.
  - exists st. split; [apply delay_returns |]. repeat split; reflexivity.
Qed.

(** X8.  The statement of the loop that sets the interrupt enable copies
    bit 7 of the switch byte into [ET0].  While [ET0] is 0 and that
    statement is not executed, any sequence of timer expiries and other
    foreground statements goes through and leaves the accumulator and the
    output pin as they were. *)
Theorem disabled_keeps_accumulator :
  (forall st : state,
      exists st' : state,
        exec SetET0 st = Some st' /\ ET0 st' = Z.testbit (Swit st) 7)
  /\ (forall (evs : list event) (st : state),
        ET0 st = false -> ~ In (Fg SetET0) evs ->
        exists st' : state,
          run evs st = Some st'
          /\ Counter st' = Counter st
          /\ OUT_PIN st' = OUT_PIN st
          /\ ET0 st' = false).
Proof.
  split.
  - intros st. eexists. split; [reflexivity |].
    cbn [ET0 set_ET0]. apply top_bit_test.
  - intros evs. induction evs as [| e evs IH]; intros st Hoff Hno.
    + exists st. cbn [run]. auto.
    + cbn [run]. destruct e as [| s]; cbn [step bind].
      * unfold interrupt. rewrite Hoff.
        apply IH; [exact Hoff |].
        intros Hin. apply Hno. right. exact Hin.
      * destruct (exec_keeps s st) as (st1 & E & H1 & H2 & H3).
        rewrite E. cbn [bind].
        assert (Hs : s <> SetET0)
          by (intros ->; apply Hno; left; reflexivity).
        destruct (IH st1) as (st' & E' & G1 & G2 & G3).
        { rewrite H3 by exact Hs. exact Hoff. }
        { intros Hin. apply Hno. right. exact Hin. }
        exists st'. rewrite G1, G2, H1, H2. auto.
Qed.

Lemma timer0_reads (st1 st2 : state) :
  Counter st1 = Counter st2 ->
  Increment st1 = Increment st2 ->
  OUT_PIN st1 = OUT_PIN st2 ->
  Counter (timer0 st1) = Counter (timer0 st2)
  /\ OUT_PIN (timer0 st1) = OUT_PIN (timer0 st2).
Proof.
  intros Ec Ei Eo. unfold timer0.
  cbn [Counter set_Counter]. rewrite Ec, Ei.
  destruct (negb (Z.land (uint16 (Counter st2 + Increment st2)) HIGH_BYTE
                  =? 0));
    cbn [Counter OUT_PIN set_Counter set_OUT_PIN]; rewrite ?Eo; auto.
Qed.

Lemma LEDwalk_setters (c : Z) (o : bool) (st : state) :
  LEDwalk (set_Counter c (set_OUT_PIN o st))
  = set_Counter c (set_OUT_PIN o (LEDwalk st)).
Proof.
  destruct st as [i c0 o0 e s p d l]. unfold LEDwalk.
  cbn [direction pattern set_pattern set_Counter set_OUT_PIN Increment
       Counter OUT_PIN ET0 Swit LED_BANK].
  destruct d;
    cbn [direction pattern set_pattern set_Counter set_OUT_PIN Increment
         Counter OUT_PIN ET0 Swit LED_BANK];
    match goal with |- context [if ?b then _ else _] => destruct b end;
    reflexivity.
Qed.

(** X9.  Each variable has one writer.  No foreground statement changes
    the accumulator or the output pin; the ISR changes nothing else; and
    the ISR commutes with a step of the walk and with the delay, so an
    interrupt before or after either gives the same state. *)
Theorem contexts_commute (st : state) :
  (forall s : stmt,
      exists st' : state,
        exec s st = Some st'
        /\ Counter st' = Counter st /\ OUT_PIN st' = OUT_PIN st)
  /\ (Increment (timer0 st) = Increment st
      /\ ET0 (timer0 st) = ET0 st
      /\ Swit (timer0 st) = Swit st
      /\ pattern (timer0 st) = pattern st
      /\ direction (timer0 st) = direction st
      /\ LED_BANK (timer0 st) = LED_BANK st)
  /\ LEDwalk (timer0 st) = timer0 (LEDwalk st)
  /\ exec CallDelay (timer0 st) = option_map timer0 (exec CallDelay st).
Proof.
  split; [| split; [| split]].
  - intros s. destruct (exec_keeps s st) as (st' & E & H1 & H2 & _).
    exists st'. auto.
  - rewrite (timer0_others st). repeat split; reflexivity.
  - destruct (LEDwalk_keeps st) as (E1 & E2 & _ & E4).
    destruct (timer0_reads (LEDwalk st) st E1 E4 E2) as (R1 & R2).
    rewrite (timer0_others (LEDwalk st)), R1, R2.
    rewrite (timer0_others st) at 1.
    apply LEDwalk_setters.
  - cbn [exec]. rewrite !delay_returns. reflexivity.
Qed.

Lemma walk_round (q : nat) :
  forall (r : nat) (st : state),
    walk (iter 14 LEDwalk st) = walk st ->
    walk (iter (14 * q + r) LEDwalk st) = walk (iter r LEDwalk st).
Proof.
  induction q as [| q IH]; intros r st Hround.
  - reflexivity.
  - replace (14 * S q + r)%nat with (14 + (14 * q + r))%nat by lia.
    rewrite iter_add.
    rewrite (iter_LEDwalk_agree (14 * q + r) (iter 14 LEDwalk st) st Hround).
    apply IH. exact Hround.
Qed.

Lemma walk_first_round (out : bool) (swit leds : Z) (r : nat) :
  (r < 14)%nat ->
  walk (iter r LEDwalk (reset out swit leds))
  = (2 ^ (if Z.of_nat r <=? 7 then Z.of_nat r else 14 - Z.of_nat r),
     Z.of_nat r <? 7).
Proof.
  intros Hr.
  do 14 (destruct r as [| r]; [vm_compute; reflexivity |]). lia.
Qed.

Lemma LEDwalk_bank (st : state) :
  LED_BANK (LEDwalk st) = uint8 (Z.lnot (pattern (LEDwalk st))).
Proof.
  destruct st as [i c o e s p d l]. unfold LEDwalk.
  cbn [direction pattern set_pattern].
  destruct d; cbn [pattern set_pattern];
    match goal with |- context [if ?b then _ else _] => destruct b end;
    reflexivity.
Qed.

Lemma complement_byte (p : Z) : 0 <= p <= 255 -> uint8 (Z.lnot p) = 255 - p.
Proof.
  intros Hp. unfold uint8, Z.lnot.
  symmetry. apply (Z.mod_unique _ 256 (-1)); lia.
Qed.

(** X10.  From the start of the program, after [n] calls of [LEDwalk] the
    pattern is the single bit at position [position n] (0 up to 7 and
    down again, period 14), the direction is left during the first seven
    calls of each round, and from the first call on the LED port holds
    the complement of the pattern: one LED is lit, never none and never
    two. *)
Theorem LEDwalk_closed_form (out : bool) (swit leds : Z) (n : nat) :
  walk (iter n LEDwalk (reset out swit leds))
  = (2 ^ position n, leftwards n)
  /\ 0 <= position n <= 7
  /\ LED_BANK (iter (S n) LEDwalk (reset out swit leds))
     = 255 - 2 ^ position (S n).
Proof.
  assert (Hform : forall m : nat,
             walk (iter m LEDwalk (reset out swit leds))
             = (2 ^ position m, leftwards m)).
  { intros m. unfold position, leftwards.
    pose proof (Nat.mod_upper_bound m 14 ltac:(lia)) as Hr.
    rewrite <- (walk_first_round out swit leds (m mod 14)) by exact Hr.
    rewrite (Nat.div_mod_eq m 14) at 1.
    apply walk_round. vm_compute. reflexivity. }
  assert (Hpos : forall m : nat, 0 <= position m <= 7).
  { intros m. unfold position.
    pose proof (Nat.mod_upper_bound m 14 ltac:(lia)) as Hr.
    destruct (Z.leb_spec (Z.of_nat (m mod 14)) 7); lia. }
  split; [apply Hform |]. split; [apply Hpos |].
  rewrite iter_succ_r, LEDwalk_bank, <- iter_succ_r.
  assert (HP : pattern (iter (S n) LEDwalk (reset out swit leds))
               = 2 ^ position (S n))
    by (change (pattern (iter (S n) LEDwalk (reset out swit leds)))
          with (fst (walk (iter (S n) LEDwalk (reset out swit leds))));
        rewrite Hform; reflexivity).
  rewrite HP.
  apply complement_byte.
  pose proof (Hpos (S n)) as Hb.
  assert (0 < 2 ^ position (S n)) by (apply Z.pow_pos_nonneg; lia).
  assert (2 ^ position (S n) <= 2 ^ 7) by (apply Z.pow_le_mono_r; lia).
  change (2 ^ 7) with 128 in *. lia.
Qed.

Lemma LEDwalk_zero (st : state) :
  pattern st = 0 ->
  pattern (LEDwalk st) = 0 /\ LED_BANK (LEDwalk st) = 0xFF.
Proof.
  intros Hp. rewrite LEDwalk_bank.
  assert (H0 : pattern (LEDwalk st) = 0).
  { destruct st as [i c o e s p d l]. cbn [pattern] in Hp. subst p.
    destruct d; reflexivity. }
  rewrite H0. split; reflexivity.
Qed.

(** X11.  [LEDwalk] does not recover from a pattern out of its round: from
    0x80 still walking left, from 1 still walking right, or from 0, every
    further call leaves the pattern at 0 and all LEDs off. *)
Theorem LEDwalk_dark
  (st : state)
  (Hout : walk st = (0x80, true) \/ walk st = (1, false) \/ pattern st = 0)
  (n : nat) :
  pattern (iter (S n) LEDwalk st) = 0
  /\ LED_BANK (iter (S n) LEDwalk st) = 0xFF.
Proof.
  induction n as [| n IH].
  - cbn [iter]. rewrite LEDwalk_bank.
    assert (H0 : pattern (LEDwalk st) = 0).
    { destruct st as [i c o e s p d l]. unfold walk in Hout.
      cbn [pattern direction] in Hout.
      destruct Hout as [E | [E | E]].
      - injection E as -> ->. reflexivity.
      - injection E as -> ->. reflexivity.
      - subst p. destruct d; reflexivity. }
    rewrite H0. split; reflexivity.
  - rewrite iter_succ_r. apply LEDwalk_zero. apply IH.
Qed.

End FreqGenAccumMore.

Lemma output_waveform_witness :
  0 <= FreqGenAccum.Counter (FreqGenAccum.start 16 true) <= 255
  /\ 0 <= FreqGenAccum.Increment (FreqGenAccum.start 16 true) <= 255
  /\ FreqGenAccum.OUT_PIN
       (iter 16 FreqGenAccum.timer0 (FreqGenAccum.start 16 true)) = false.
Proof.
  assert (Hc : 0 <= FreqGenAccum.Counter (FreqGenAccum.start 16 true) <= 255)
    by (cbn; lia).
  assert (Hi : 0 <= FreqGenAccum.Increment (FreqGenAccum.start 16 true)
               <= 255) by (cbn; lia).
  split; [exact Hc |]. split; [exact Hi |].
  exact (output_waveform (FreqGenAccum.start 16 true) 16 Hc Hi).
Defined.

Lemma accumulator_period_witness :
  0 <= FreqGenAccum.Counter (FreqGenAccum.start 3 true) <= 255
  /\ 0 <= FreqGenAccum.Increment (FreqGenAccum.start 3 true) <= 255
  /\ FreqGenAccum.toggle_count 512 (FreqGenAccum.start 3 true) = 6.
Proof.
  assert (Hc : 0 <= FreqGenAccum.Counter (FreqGenAccum.start 3 true) <= 255)
    by (cbn; lia).
  assert (Hi : 0 <= FreqGenAccum.Increment (FreqGenAccum.start 3 true)
               <= 255) by (cbn; lia).
  split; [exact Hc |]. split; [exact Hi |].
  exact (proj2 (accumulator_period (FreqGenAccum.start 3 true) Hc Hi)).
Defined.

Lemma disabled_keeps_accumulator_witness :
  FreqGenAccum.ET0 (FreqGenAccum.reset true 0x7F 0xFF) = false
  /\ ~ In (FreqGenAccum.Fg FreqGenAccum.SetET0)
          [FreqGenAccum.Tick; FreqGenAccum.Fg FreqGenAccum.SetIncrement;
           FreqGenAccum.Tick]
  /\ exists st' : FreqGenAccum.state,
       FreqGenAccum.run
         [FreqGenAccum.Tick; FreqGenAccum.Fg FreqGenAccum.SetIncrement;
          FreqGenAccum.Tick]
         (FreqGenAccum.reset true 0x7F 0xFF) = Some st'
       /\ FreqGenAccum.Counter st' = 0.
Proof.
  assert (Hoff : FreqGenAccum.ET0 (FreqGenAccum.reset true 0x7F 0xFF) = false)
    by reflexivity.
  assert (Hno : ~ In (FreqGenAccum.Fg FreqGenAccum.SetET0)
                     [FreqGenAccum.Tick;
                      FreqGenAccum.Fg FreqGenAccum.SetIncrement;
                      FreqGenAccum.Tick]).
  { intros [H | [H | [H | H]]]; try discriminate H. exact H. }
  split; [exact Hoff |]. split; [exact Hno |].
  destruct (proj2 disabled_keeps_accumulator _ _ Hoff Hno)
    as (st' & E & HC & _).
  exists st'. split; [exact E | exact HC].
Defined.

Lemma LEDwalk_dark_witness :
  (FreqGenAccum.walk
     (FreqGenAccum.set_pattern 0x80 (FreqGenAccum.reset true 0xFF 0xFF))
   = (0x80, true)
   \/ FreqGenAccum.walk
        (FreqGenAccum.set_pattern 0x80 (FreqGenAccum.reset true 0xFF 0xFF))
      = (1, false)
   \/ FreqGenAccum.pattern
        (FreqGenAccum.set_pattern 0x80 (FreqGenAccum.reset true 0xFF 0xFF))
      = 0)
  /\ FreqGenAccum.LED_BANK
       (iter 3 FreqGenAccum.LEDwalk
          (FreqGenAccum.set_pattern 0x80
             (FreqGenAccum.reset true 0xFF 0xFF))) = 0xFF.
Proof.
  assert (H : FreqGenAccum.walk
                (FreqGenAccum.set_pattern 0x80
                   (FreqGenAccum.reset true 0xFF 0xFF)) = (0x80, true)
              \/ FreqGenAccum.walk
                   (FreqGenAccum.set_pattern 0x80
                      (FreqGenAccum.reset true 0xFF 0xFF)) = (1, false)
              \/ FreqGenAccum.pattern
                   (FreqGenAccum.set_pattern 0x80
                      (FreqGenAccum.reset true 0xFF 0xFF)) = 0)
    by (left; reflexivity).
  split; [exact H |].
  exact (proj2 (LEDwalk_dark _ H 2%nat)).
Defined.

(** ** Program 3: the LED display, the button and the flashing LED *)

Section FreqGen_timer2_More.
Import FreqGen_timer2 ButtonEdges.

Lemma low_bits_of_byte (sw : Z) :
  Z.land (uint8 sw) FREQ_MASK = Z.land sw FREQ_MASK.
Proof.
  unfold uint8. change FREQ_MASK with (Z.ones 3).
  rewrite !Z.land_ones by lia.
  apply Z.mod_mod_divide. exists 32. reflexivity.
Qed.

Lemma selector_bounds (sw : Z) : 0 <= Z.land sw FREQ_MASK <= 7.
Proof.
  change FREQ_MASK with (Z.ones 3). rewrite Z.land_ones by lia.
  pose proof (Z.mod_pos_bound sw (2 ^ 3) ltac:(lia)) as Hb.
  change (2 ^ 3) with 8 in *. lia.
Qed.

Lemma freqNum_selector (sw : Z) :
  uint8 (Z.land (uint8 sw) FREQ_MASK) = Z.land sw FREQ_MASK.
Proof.
  rewrite low_bits_of_byte. apply uint8_small.
  pose proof (selector_bounds sw). lia.
Qed.

Lemma one_hot_bits (k : Z) :
  0 <= k < Z.of_nat 8 ->
  forall i : Z,
    0 <= i < Z.of_nat 8 ->
    Z.testbit (255 - 2 ^ k) i = negb (i =? k).
Proof.
  revert k. apply (below_cases
                     (fun k => forall i : Z,
                          0 <= i < Z.of_nat 8 ->
                          Z.testbit (255 - 2 ^ k) i = negb (i =? k))).
  intros a Ha.
  do 8 (destruct a as [| a];
        [apply below_cases; intros b Hb;
         do 8 (destruct b as [| b]; [reflexivity |]); lia |]).
  lia.
Qed.

(** X12.  Whatever the switch byte, a pass of the loop leaves on the LED
    port the complement of the single bit at the position given by the
    three low switches: of the eight LEDs (lit when their bit is 0) exactly
    the one with the number of the selected frequency is lit. *)
Theorem led_one_hot (sw : Z) (b1 b2 : bool) (st : state) :
  exists st' : state,
    main_loop sw b1 b2 st = Some st'
    /\ LED_BANK st' = 255 - 2 ^ Z.land sw FREQ_MASK
    /\ (forall i : Z,
          0 <= i < 8 ->
          Z.testbit (LED_BANK st') i = negb (i =? Z.land sw FREQ_MASK)).
Proof.
  destruct (main_loop_spec sw b1 b2 st)
    as (st' & E & Hf & _ & _ & _ & Hl & _).
  exists st'. split; [exact E |].
  pose proof (selector_bounds sw) as Hk.
  assert (Hbank : LED_BANK st' = 255 - 2 ^ Z.land sw FREQ_MASK).
  { rewrite Hl, Hf, freqNum_selector.
    rewrite Z.shiftl_1_l.
    assert (0 < 2 ^ Z.land sw FREQ_MASK) by (apply Z.pow_pos_nonneg; lia).
    assert (2 ^ Z.land sw FREQ_MASK <= 2 ^ 7)
      by (apply Z.pow_le_mono_r; lia).
    change (2 ^ 7) with 128 in *.
    rewrite (uint8_small (2 ^ Z.land sw FREQ_MASK)) by lia.
    apply complement_byte. lia. }
  split; [exact Hbank |].
  intros i Hi. rewrite Hbank.
  apply one_hot_bits; change (Z.of_nat 8) with 8; lia.
Qed.

(** X13.  The ISR of timer 2 and a pass of the loop write disjoint
    variables and read none of each other's: an interrupt before the pass
    and an interrupt after it give the same state, and the pass leaves the
    output pin and the flag [TF2] as they were. *)
Theorem isr_commutes_with_pass (sw : Z) (b1 b2 : bool) (st : state) :
  main_loop sw b1 b2 (timer2 st) = option_map timer2 (main_loop sw b1 b2 st)
  /\ exists st' : state,
       main_loop sw b1 b2 st = Some st'
       /\ OUT_PIN st' = OUT_PIN st /\ TF2 st' = TF2 st.
Proof.
  split.
  - unfold main_loop. rewrite !delay_returns. cbn [option_map]. f_equal.
    destruct st as [o t l h lb lp s2 tc e2 ea tm fn rv fl lbt].
    destruct lbt, b1, fl; reflexivity.
  - destruct (main_loop_spec sw b1 b2 st)
      as (st' & E & _ & _ & _ & _ & _ & _ & _ & _ & Ho & Ht).
    exists st'. auto.
Qed.



(** X15.  While the button is released (level 1 in every pass), [flash]
    keeps its value.  If it is 1, the LED pin is inverted in every pass,
    so after [n] passes it is its first value flipped [n] times; if it is
    0, the pin is 1 from the first pass on. *)
Theorem flash_sequence (inputs : list (Z * bool)) :
  forall st : state,
    Forall (fun x : Z * bool => snd x = true) inputs ->
    exists (st' : state) (changes : list bool),
      passes inputs st = Some (st', changes)
      /\ flash st' = flash st
      /\ LED_PIN st'
         = (if flash st
            then xorb (LED_PIN st) (Nat.odd (length inputs))
            else match inputs with
                 | [] => LED_PIN st
                 | _ :: _ => true
                 end).
Proof.
  induction inputs as [| [sw b] inputs IH]; intros st Hall.
  - exists st, []. cbn [passes length].
    change (Nat.odd 0) with false. rewrite xorb_false_r.
    destruct (flash st); auto.
  - inversion Hall as [| x l Hb Hrest]; subst. cbn [snd] in Hb. subst b.
    cbn [passes]. unfold pass.
    destruct (main_loop_spec sw true true st)
      as (st1 & E1 & _ & _ & _ & _ & _ & F1 & _ & P1 & _).
    rewrite E1. cbn [bind].
    destruct (IH st1 Hrest) as (st' & ch & E' & F' & P').
    rewrite E'. cbn [bind fst snd].
    cbn [negb] in F1. rewrite andb_false_r, xorb_false_r in F1.
    rewrite F1 in *.
    eexists. eexists. split; [reflexivity |].
    split; [exact F' |].
    rewrite P', P1. cbn [length].
    destruct (flash st).
    + rewrite Nat.odd_succ, <- Nat.negb_odd.
      destruct (LED_PIN st), (Nat.odd (length inputs)); reflexivity.
    + destruct inputs; reflexivity.
Qed.

Lemma lookUp_bounds (v : Z) : In v lookUp -> 37888 <= v <= 64000.
Proof.
  unfold lookUp. cbn [In].
  intros H. repeat (destruct H as [<- | H]; [lia |]). contradiction.
Qed.

(** X16.  Whatever the switch byte, the index into the table is below 8,
    the two reload registers hold bytes, and their 16-bit value is an
    entry of the table, between 37888 and 64000: the timer counts between
    1536 and 27648 clock cycles per interrupt. *)
Theorem reload_in_table (sw : Z) (b1 b2 : bool) (st : state) :
  exists st' : state,
    main_loop sw b1 b2 st = Some st'
    /\ (Z.to_nat (freqNum st') < length lookUp)%nat
    /\ In (RCAP2 st') lookUp
    /\ 37888 <= RCAP2 st' <= 64000
    /\ 1536 <= 65536 - RCAP2 st' <= 27648
    /\ 0 <= RCAP2L st' <= 255
    /\ 0 <= RCAP2H st' <= 255.
Proof.
  destruct (main_loop_spec sw b1 b2 st)
    as (st' & E & Hf & Hr & Hl & Hh & _).
  exists st'. split; [exact E |].
  pose proof (selector_range (uint8 sw)) as Hk. rewrite <- Hf in Hk.
  assert (Hidx : (Z.to_nat (freqNum st') < length lookUp)%nat)
    by (cbn [lookUp length]; lia).
  destruct (reload_bytes (freqNum st') Hk) as (_ & _ & B3).
  cbv zeta in B3.
  assert (HR : RCAP2 st' = nth (Z.to_nat (freqNum st')) lookUp 0)
    by (unfold RCAP2; rewrite Hh, Hl, Hr; exact B3).
  assert (Hin : In (RCAP2 st') lookUp)
    by (rewrite HR; apply nth_In; exact Hidx).
  pose proof (lookUp_bounds _ Hin) as Hb.
  split; [exact Hidx |]. split; [exact Hin |].
  split; [exact Hb |]. split; [lia |].
  rewrite Hl, Hh. unfold uint8.
  pose proof (Z.mod_pos_bound (Z.land (reloadVal st') LOW_BYTE) 256
                ltac:(lia)).
  pose proof (Z.mod_pos_bound (Z.shiftr (reloadVal st') 8) 256 ltac:(lia)).
  lia.
Qed.

(** X17.  Of the switch byte a pass of the loop uses the three low bits
    and nothing else: the pass with the byte and the pass with its three
    low bits alone end in the same state. *)
Theorem selector_low_bits (sw : Z) (b1 b2 : bool) (st : state) :
  main_loop sw b1 b2 st = main_loop (Z.land sw FREQ_MASK) b1 b2 st.
Proof.
  assert (E : uint8 (Z.land (uint8 (Z.land sw FREQ_MASK)) FREQ_MASK)
              = uint8 (Z.land (uint8 sw) FREQ_MASK)).
  { rewrite !freqNum_selector, <- Z.land_assoc, Z.land_diag. reflexivity. }
  unfold main_loop. rewrite !delay_returns. f_equal.
  destruct st as [o t l h lb lp s2 tc e2 ea tm fn rv fl lbt].
  cbn [OUT_PIN TF2 RCAP2L RCAP2H LED_BANK LED_PIN SWITCHES T2CON ET2 EA temp
       freqNum reloadVal flash lastButton
       set_OUT_PIN set_TF2 set_RCAP2L set_RCAP2H set_LED_BANK set_LED_PIN
       set_temp set_freqNum set_reloadVal set_flash set_lastButton].
  rewrite E.
  destruct lbt, b1, fl; reflexivity.
Qed.

End FreqGen_timer2_More.

Lemma flash_sequence_witness :
  Forall (fun x : Z * bool => snd x = true) [(0xFF, true); (0xFF, true)]
  /\ exists (st' : FreqGen_timer2.state) (changes : list bool),
       FreqGen_timer2.passes [(0xFF, true); (0xFF, true)]
         (FreqGen_timer2.main_setup FreqGen_timer2.power_on)
       = Some (st', changes)
       /\ FreqGen_timer2.LED_PIN st' = true.
Proof.
  assert (Hall : Forall (fun x : Z * bool => snd x = true)
                   [(0xFF, true); (0xFF, true)])
    by (repeat constructor).
  split; [exact Hall |].
  destruct (flash_sequence [(0xFF, true); (0xFF, true)]
              (FreqGen_timer2.main_setup FreqGen_timer2.power_on) Hall)
    as (st' & ch & E & _ & P).
  exists st', ch. split; [exact E | exact P].
Defined.

Lemma led_one_hot_witness :
  0 <= 5 < 8
  /\ exists st' : FreqGen_timer2.state,
       FreqGen_timer2.main_loop 0xFD true true
         (FreqGen_timer2.main_setup FreqGen_timer2.power_on) = Some st'
       /\ FreqGen_timer2.LED_BANK st' = 0xDF
       /\ Z.testbit (FreqGen_timer2.LED_BANK st') 5 = false.
Proof.
  assert (Hi : 0 <= 5 < 8) by lia.
  split; [exact Hi |].
  destruct (led_one_hot 0xFD true true
              (FreqGen_timer2.main_setup FreqGen_timer2.power_on))
    as (st' & E & HB & Hbits).
  exists st'. split; [exact E |]. split; [exact HB |].
  exact (Hbits 5 Hi).
Defined.
